(** * celestrak-go: query construction and the fetch-with-retry pipeline

    A shallow embedding of package [celestrak] (query.go, the error types,
    and the client with [shouldRetry], [fetchOnce] and [fetch]) together
    with the properties of its specification.

    Conventions.
    - A Go [string] is a [string] (a sequence of bytes); a [[]byte] is a
      [list byte]; [string(b)] is [string_of_list_byte].
    - Go [int] (on a 64-bit platform) and [time.Duration] are 64-bit
      signed integers: they are values of [Z] and every arithmetic result
      goes through [wrap64].
    - A Go [error] is a value of the inductive type [error]; the dynamic
      type the source inspects with a type assertion is the head
      constructor.
    - The calls into net/url, net/http, io, strings and context are
      modelled next to the code that uses them; what depends on the
      version of the Go library is kept abstract in the class [NetLib]. *)

From Stdlib Require Import ZArith NArith List Lia.
From Stdlib.Strings Require Import String Ascii Byte.
From Stdlib Require Import DecimalString.
From stdpp Require Import base option list gmap strings sorting.
Import ListNotations.
Local Open Scope string_scope.

(** ** Strings and bytes *)

Definition bytes := list byte.

(** [string(b)] and [[]byte(s)]. *)
Definition string_of_bytes (b : bytes) : string := string_of_list_byte b.
Definition bytes_of_string (s : string) : bytes := list_byte_of_string s.

(** [len(b)], as a binary number so that it can be compared with large
    constants. *)
Definition len {A} (l : list A) : N := N.of_nat (length l).

(** [strconv.Itoa] / the verb [%d]. *)
Definition itoa (n : Z) : string := NilZero.string_of_int (Z.to_int n).

(** Two's complement wrap-around of a 64-bit signed integer. *)
Definition wrap64 (z : Z) : Z := (z + 2 ^ 63) mod 2 ^ 64 - 2 ^ 63.

Definition str (l : list N) : list ascii := map ascii_of_N l.

(** The UTF-8 encodings of the code points for which [unicode.IsSpace]
    holds: U+0009..U+000D, U+0020, U+0085, U+00A0, U+1680,
    U+2000..U+200A, U+2028, U+2029, U+202F, U+205F and U+3000. *)
Definition whiteSpace : list (list ascii) :=
  map str
    [ [9]; [10]; [11]; [12]; [13]; [32];
      [0xC2; 0x85]; [0xC2; 0xA0]; [0xE1; 0x9A; 0x80];
      [0xE2; 0x80; 0x80]; [0xE2; 0x80; 0x81]; [0xE2; 0x80; 0x82];
      [0xE2; 0x80; 0x83]; [0xE2; 0x80; 0x84]; [0xE2; 0x80; 0x85];
      [0xE2; 0x80; 0x86]; [0xE2; 0x80; 0x87]; [0xE2; 0x80; 0x88];
      [0xE2; 0x80; 0x89]; [0xE2; 0x80; 0x8A]; [0xE2; 0x80; 0xA8];
      [0xE2; 0x80; 0xA9]; [0xE2; 0x80; 0xAF]; [0xE2; 0x81; 0x9F];
      [0xE3; 0x80; 0x80] ]%N.

Fixpoint hasPrefix (p s : list ascii) : bool :=
  match p, s with
  | [], _ => true
  | a :: p', b :: s' => Ascii.eqb a b && hasPrefix p' s'
  | _ :: _, [] => false
  end.

(** Drops leading runs of the given byte patterns; every pattern is
    non-empty, so [length s] rounds are enough. *)
Fixpoint trimLeading (pats : list (list ascii)) (fuel : nat) (s : list ascii)
  : list ascii :=
  match fuel with
  | O => s
  | S fuel' =>
      match List.find (fun p => hasPrefix p s) pats with
      | Some p => trimLeading pats fuel' (skipn (length p) s)
      | None => s
      end
  end.

(** [strings.TrimSpace]: the string without its leading and trailing
    Unicode white space.  A byte sequence that is not one of the encodings
    above decodes to a rune that is not white space (or to the
    replacement rune), at which trimming stops, from either end. *)
Definition TrimSpace (s : string) : string :=
  let l := list_ascii_of_string s in
  let l1 := trimLeading whiteSpace (length l) l in
  let r := trimLeading (map (@rev ascii) whiteSpace) (length l1) (rev l1) in
  string_of_list_ascii (rev r).

(** [strings.Join(parts, sep)]. *)
Fixpoint Join (parts : list string) (sep : string) : string :=
  match parts with
  | [] => ""
  | [p] => p
  | p :: rest => p +:+ sep +:+ Join rest sep
  end.

(** ** net/url *)

(** The bytes [url.QueryEscape] leaves as they are: the unreserved
    characters of RFC 3986. *)
Definition unreserved (c : ascii) : bool :=
  let n := N_of_ascii c in
  ((48 <=? n) && (n <=? 57) || (65 <=? n) && (n <=? 90)
   || (97 <=? n) && (n <=? 122)
   || (n =? 45) || (n =? 95) || (n =? 46) || (n =? 126))%N.

Definition upperhex (n : N) : ascii :=
  ascii_of_N (if (n <? 10)%N then 48 + n else 55 + n)%N.

(** [url.QueryEscape]: a space becomes [+], any other byte that is not
    unreserved becomes [%XX] in upper-case hexadecimal. *)
Fixpoint QueryEscape (s : string) : string :=
  match s with
  | EmptyString => ""
  | String c rest =>
      if unreserved c then String c (QueryEscape rest)
      else if Ascii.eqb c " " then String "+" (QueryEscape rest)
      else
        let n := N_of_ascii c in
        String "%" (String (upperhex (n / 16)) (String (upperhex (n mod 16))
          (QueryEscape rest)))
  end.

(** [url.Values] is [map[string][]string]. *)
Abbreviation Values := (gmap string (list string)).

(** [Values.Set]: the key is bound to the one value, replacing any
    earlier binding. *)
Definition Values_Set (key value : string) (v : Values) : Values :=
  <[key := [value]]> v.

(** The order of Go's [<] on strings: lexicographic on bytes. *)
Definition string_le (a b : string) : Prop := String.leb a b = true.

#[global] Instance string_le_dec a b : Decision (string_le a b).
Proof. unfold string_le. apply _. Defined.

(** The keys of a map in the order [slices.Sort] puts them. *)
Definition sortedKeys (v : Values) : list string :=
  merge_sort string_le (map fst (map_to_list v)).

(** The [key=value] pieces [Values.Encode] writes, in the order it writes
    them: by ascending key, the values of a key in their order. *)
Definition encodedPairs (v : Values) : list string :=
  flat_map
    (fun k => map (fun x => QueryEscape k +:+ "=" +:+ QueryEscape x)
                  (default [] (v !! k)))
    (sortedKeys v).

(** [Values.Encode]: an ampersand goes before every piece but the first. *)
Definition Values_Encode (v : Values) : string := Join (encodedPairs v) "&".

(** [url.URL]; of a base URL only the origin matters here. *)
Record URL := mkURL {
  Scheme : string;
  Host : string;
  Path : string;
  RawQuery : string
}.

(** What this package needs from net/url and net/http and what depends
    on the library's escaping and path-normalisation rules.
    - [resolvedPath base p] is [base.ResolveReference(&url.URL{Path: p}).String()]
      for a non-empty [p]: scheme, authority and the escaped path with its
      dot segments removed.
    - [requestError u] is the error message with which
      [http.NewRequestWithContext(ctx, "GET", u, nil)] refuses the string
      [u] (for a non-nil [ctx]), if it does. *)
Class NetLib := {
  resolvedPath : URL -> string -> string;
  requestError : string -> option string
}.

(** [base.ResolveReference(rel).String()] for a reference that has a
    non-empty path and neither scheme, authority nor fragment: the query
    of the reference is kept and written after a question mark when it is
    not empty. *)
Definition resolveString `{NetLib} (base : URL) (rel : URL) : string :=
  resolvedPath base (Path rel)
  +:+ (if String.eqb (RawQuery rel) "" then "" else "?" +:+ RawQuery rel).

(** ** Errors (errors.go) *)

(** The contents of an [http.Response] body as the reader delivers it:
    the bytes [content], then end of file, or the read error [broken]
    when there is one.  The error is seen by the read that follows the
    last byte. *)
Record Body := mkBody {
  content : bytes;
  broken : option string
}.

(** [http.Response]: the status line, the status code, the value of
    [Header.Get("ETag")] (the empty string when the header is absent) and
    the body. *)
Record Response := mkResponse {
  Status : string;
  StatusCode : Z;
  Header_ETag : string;
  RespBody : Body
}.

(** What [ctx.Err()] returns once the context is done. *)
Inductive ContextErr := Canceled | DeadlineExceeded.

(** The error values of the package.  [QueryError] and [ErrorResponse]
    are the two types of errors.go (as pointers); [ContextError] is
    [context.Canceled] or [context.DeadlineExceeded]; [LibError] is an
    error of net/http or io, never one of the package's own types;
    [Wrap text inner] is the wrapping error that
    [fmt.Errorf("text: %w", inner)] builds. *)
Inductive error :=
| QueryError (Message : string)
| ErrorResponse (Response : option Response) (Message : string)
| ContextError (cause : ContextErr)
| LibError (msg : string)
| Wrap (text : string) (inner : error).

Definition ContextErr_message (e : ContextErr) : string :=
  match e with
  | Canceled => "context canceled"
  | DeadlineExceeded => "context deadline exceeded"
  end.

(** The method [Error()] of each error value.  The package builds no
    [ErrorResponse] with a nil [Response]; for one, the status is left
    out here. *)
Fixpoint Error (e : error) : string :=
  match e with
  | QueryError m => "celestrak: query error: " +:+ m
  | ErrorResponse r m =>
      "celestrak: " +:+ match r with Some r => Status r | None => "" end
      +:+ ": " +:+ m
  | ContextError c => ContextErr_message c
  | LibError m => m
  | Wrap t inner => t +:+ ": " +:+ Error inner
  end.

(** The method [IsServerError] of [ErrorResponse]; its receiver's field
    [Response] may be nil. *)
Definition IsServerError (r : option Response) : bool :=
  match r with
  | Some resp => (500 <=? StatusCode resp)%Z
  | None => false
  end.

(** [IsQueryError]: the type assertion of [err] to a [QueryError] pointer
    looks at the dynamic type of [err] itself and does not unwrap. *)
Definition IsQueryError (err : option error) : bool :=
  match err with
  | Some (QueryError _) => true
  | _ => false
  end.

(** [IsErrorResponse]. *)
Definition IsErrorResponse (err : option error) : bool :=
  match err with
  | Some (ErrorResponse _ _) => true
  | _ => false
  end.

(** [errors.Is(err, target)] for a context error: follows the chain of
    [%w] wrappers. *)
Fixpoint wrapsContextError (c : ContextErr) (e : error) : Prop :=
  match e with
  | ContextError c' => c' = c
  | Wrap _ inner => wrapsContextError c inner
  | _ => False
  end.

(** A value of type [(T, error)]. *)
Inductive result (A : Type) :=
| Ok (a : A)
| Err (e : error).
Arguments Ok {A} a.
Arguments Err {A} e.

(** ** Queries (query.go) *)

Definition Format := string.
Definition FormatTLE : Format := "TLE".
Definition Format3LE : Format := "3LE".
Definition Format2LE : Format := "2LE".
Definition FormatXML : Format := "XML".
Definition FormatKVN : Format := "KVN".
Definition FormatJSON : Format := "JSON".
Definition FormatJSONPretty : Format := "JSON-PRETTY".
Definition FormatCSV : Format := "CSV".

Record TableFlags := mkTableFlags {
  BSTAR : bool;
  ShowOps : bool;
  Oldest : bool;
  Docked : bool;
  Movers : bool
}.

Record Query := mkQuery {
  CATNR : string;
  INTDES : string;
  GROUP : string;
  NAME : string;
  SPECIAL : string;
  FORMAT : Format;
  tableFlags : TableFlags
}.

Definition noFlags : TableFlags := mkTableFlags false false false false false.

Definition QueryByCATNR (catnr : string) (format : Format) : Query :=
  mkQuery catnr "" "" "" "" format noFlags.
Definition QueryByINTDES (intdes : string) (format : Format) : Query :=
  mkQuery "" intdes "" "" "" format noFlags.
Definition QueryByGROUP (group : string) (format : Format) : Query :=
  mkQuery "" "" group "" "" format noFlags.
Definition QueryByName (name : string) (format : Format) : Query :=
  mkQuery "" "" "" name "" format noFlags.
Definition QueryBySPECIAL (special : string) (format : Format) : Query :=
  mkQuery "" "" "" "" special format noFlags.

(** The named results [key], [val] and [err] of [singleSelector], which
    its closure [set] reads and assigns. *)
Record selection := mkSelection {
  sel_key : string;
  sel_val : string;
  sel_err : option error
}.

Definition ambiguousSelector : string :=
  "set exactly one of CATNR/INTDES/GROUP/NAME/SPECIAL".
Definition missingSelector : string :=
  "missing selector (set one of CATNR/INTDES/GROUP/NAME/SPECIAL)".

(** [err != nil]. *)
Definition notNil (err : option error) : bool :=
  match err with
  | Some _ => true
  | None => false
  end.

(** The closure [set] of [singleSelector]. *)
Definition set (k v : string) (st : selection) : selection :=
  let v := TrimSpace v in
  if String.eqb v "" || notNil (sel_err st) then st
  else if negb (String.eqb (sel_key st) "") then
    mkSelection (sel_key st) (sel_val st) (Some (QueryError ambiguousSelector))
  else mkSelection k v (sel_err st).

Definition singleSelector (q : Query) : result (string * string) :=
  let st := mkSelection "" "" None in
  let st := set "CATNR" (CATNR q) st in
  let st := set "INTDES" (INTDES q) st in
  let st := set "GROUP" (GROUP q) st in
  let st := set "NAME" (NAME q) st in
  let st := set "SPECIAL" (SPECIAL q) st in
  match sel_err st with
  | Some e => Err e
  | None =>
      if String.eqb (sel_key st) "" then Err (QueryError missingSelector)
      else Ok (sel_key st, sel_val st)
  end.

Definition addTableFlags (q : Query) (params : Values) : Values :=
  let params :=
    if BSTAR (tableFlags q) then Values_Set "BSTAR" "1" params else params in
  let params :=
    if ShowOps (tableFlags q) then Values_Set "SHOW-OPS" "1" params else params in
  let params :=
    if Oldest (tableFlags q) then Values_Set "OLDEST" "1" params else params in
  let params :=
    if Docked (tableFlags q) then Values_Set "DOCKED" "1" params else params in
  let params :=
    if Movers (tableFlags q) then Values_Set "MOVERS" "1" params else params in
  params.

(** The [url.Values] that [BuildURL] fills for a selector [key], [val]. *)
Definition queryParams (q : Query) (endpoint key val : string) : Values :=
  let format := FORMAT q in
  let format := if String.eqb format "" then FormatTLE else format in
  let params : Values := ∅ in
  let params := Values_Set key val params in
  let params := Values_Set "FORMAT" format params in
  if String.eqb endpoint "table.php" then addTableFlags q params else params.

(** ** The ports of the client *)

(** [context.Context] as the client sees it.  The client reads a context
    at given points only: [ctx.Err()] and the receive from [ctx.Done()].
    These observations are counted, and a context that ends is done from
    its observation number [t] on: it is never seen live again.  A
    [select] that takes the timer although the context has ended sees
    the context live. *)
Inductive Context :=
| Background
| DoneFrom (t : nat) (cause : ContextErr).

Definition Context_Err (ctx : Context) (now : nat) : option ContextErr :=
  match ctx with
  | Background => None
  | DoneFrom t cause => if (t <=? now)%nat then Some cause else None
  end.

(** [http.Request]: the URL and the headers that were set, last first. *)
Record Request := mkRequest {
  req_URL : string;
  req_Header : list (string * string)
}.

(** What the method [Do] of [http.Client] returns: an error or a response. *)
Inductive RoundTrip :=
| DoError (msg : string)
| DoResponse (resp : Response).

(** The interface [Cache] over a store of type [St]; [Get] returns the
    bytes and the ETag when [ok] is true. *)
Record Cache (St : Type) := mkCache {
  Get : string -> St -> option (bytes * string) * St;
  Put : string -> bytes -> string -> St -> St
}.
Arguments mkCache {St} _ _.
Arguments Get {St} _ _ _.
Arguments Put {St} _ _ _ _ _.

(** [Client].  The transport answers its [n]-th call (from 0) with
    [httpClient n req]; a nil [cache] is [None]. *)
Record Client (St : Type) := mkClient {
  httpClient : nat -> Request -> RoundTrip;
  baseURL : option URL;
  userAgent : string;
  cache : option (Cache St);
  maxRetries : Z;
  retryDelay : Z
}.
Arguments mkClient {St} _ _ _ _ _ _.
Arguments httpClient {St} _ _ _.
Arguments baseURL {St} _.
Arguments userAgent {St} _.
Arguments cache {St} _.
Arguments maxRetries {St} _.
Arguments retryDelay {St} _.

Definition defaultBaseURL : URL := mkURL "https" "celestrak.org" "" "".

(** One second, in nanoseconds. *)
Definition Second : Z := 1000000000.

Definition NewClient {St} (httpClient : nat -> Request -> RoundTrip) : Client St :=
  mkClient httpClient (Some defaultBaseURL) "celestrak-go/0.0.1" None 3
           (1 * Second).

Definition WithRetries {St} (c : Client St) (maxRetries retryDelay : Z) : Client St :=
  mkClient (httpClient c) (baseURL c) (userAgent c) (cache c) maxRetries
           retryDelay.

Definition WithCache {St} (c : Client St) (cache : option (Cache St)) : Client St :=
  mkClient (httpClient c) (baseURL c) (userAgent c) cache (maxRetries c)
           (retryDelay c).

Definition WithUserAgent {St} (c : Client St) (ua : string) : Client St :=
  mkClient (httpClient c) (baseURL c) ua (cache c) (maxRetries c)
           (retryDelay c).

(** What a call does to the outside, in the order it does it.  [Attempt n]
    marks the call of [fetchOnce] in iteration [n] of the retry loop and
    [Sleep d] a wait [time.After(d)] that ran to its end (which it does at
    once when [d] is not positive). *)
Inductive Event :=
| CacheGet (key : string)
| CachePut (key : string) (data : bytes) (etag : string)
| HttpDo (req : Request)
| Sleep (d : Z)
| Attempt (n : Z).

(** The state a call runs in: the number of observations of the context
    made so far, the number of requests the transport has answered, the
    store behind the cache and the events so far, oldest first. *)
Record World (St : Type) := mkWorld {
  clock : nat;
  sent : nat;
  store : St;
  trace : list Event
}.
Arguments mkWorld {St} _ _ _ _.
Arguments clock {St} _.
Arguments sent {St} _.
Arguments store {St} _.
Arguments trace {St} _.

Definition record {St} (e : Event) (w : World St) : World St :=
  mkWorld (clock w) (sent w) (store w) (trace w ++ [e]).

(** [ctx.Err()], or the receive from [ctx.Done()] in a [select]. *)
Definition observe {St} (ctx : Context) (w : World St)
  : option ContextErr * World St :=
  (Context_Err ctx (clock w), mkWorld (S (clock w)) (sent w) (store w) (trace w)).

(** [c.httpClient.Do(req)]. *)
Definition Do {St} (c : Client St) (req : Request) (w : World St)
  : RoundTrip * World St :=
  (httpClient c (sent w) req,
   mkWorld (clock w) (S (sent w)) (store w) (trace w ++ [HttpDo req])).

(** ** Reading a body (io) *)

(** Reads up to [n] bytes: the bytes read and the bytes left. *)
Fixpoint readN {A} (n : N) (l : list A) : list A * list A :=
  match l with
  | [] => ([], [])
  | x :: rest =>
      if (n =? 0)%N then ([], l)
      else let (taken, after) := readN (N.pred n) rest in (x :: taken, after)
  end.

(** [io.ReadAll(io.LimitReader(body, n))]: the bytes read, the error, and
    the body that is left to read.  The limited reader ends the read by
    itself after [n] bytes; before that the end of the body ends it, with
    the body's error if it has one. *)
Definition ReadAllLimit (n : N) (body : Body) : bytes * option string * Body :=
  let (taken, after) := readN n (content body) in
  (taken,
   if (len taken <? n)%N then broken body else None,
   mkBody after (broken body)).

(** [n, _ := body.Read(extra[:])] for a buffer of one byte: the number of
    bytes read. *)
Definition ReadOne (body : Body) : Z :=
  match content body with
  | [] => 0
  | _ :: _ => 1
  end.

Section Package.
Context `{NetLib}.

Definition BuildURL (q : Query) (base : option URL) (endpoint : string)
  : result string :=
  match base with
  | None => Err (QueryError "base URL is nil")
  | Some base =>
      if String.eqb endpoint "" then Err (QueryError "endpoint is required")
      else
        match singleSelector q with
        | Err err => Err err
        | Ok (key, val) =>
            let params := queryParams q endpoint key val in
            let rel :=
              mkURL "" "" ("/NORAD/elements/" +:+ endpoint)
                    (Values_Encode params) in
            Ok (resolveString base rel)
        end
  end.

(** ** The client (client.go) *)

Definition maxResponseSize : N := 100 * 1024 * 1024.

Definition StatusNotModified : Z := 304.

Definition shouldRetry (err : option error) : bool :=
  match err with
  | None => false
  | Some e =>
      if IsQueryError err then false
      else
        match e with
        | ErrorResponse resp _ => IsServerError resp
        | _ => true
        end
  end.

Context {St : Type}.

(** Lines 157 to 162 of [fetchOnce]: the cached entry for the key when a
    cache is configured and has one. *)
Definition cacheLookup (c : Client St) (cacheKey : string) (w : World St)
  : option (bytes * string) * World St :=
  match cache c with
  | None => (None, w)
  | Some ch =>
      let (r, s) := Get ch cacheKey (store w) in
      (r, mkWorld (clock w) (sent w) s (trace w ++ [CacheGet cacheKey]))
  end.

(** Lines 164 to 173: the request and its headers. *)
Definition newRequest (c : Client St) (fullURL : string)
  (cached : option (bytes * string)) : Request :=
  let header := [] in
  let header :=
    if negb (String.eqb (userAgent c) "")
    then ("User-Agent", userAgent c) :: header else header in
  let header :=
    match cached with
    | Some (_, etag) =>
        if negb (String.eqb etag "")
        then ("If-None-Match", etag) :: header else header
    | None => header
    end in
  mkRequest fullURL header.

(** Lines 236 to 239: the write to the cache. *)
Definition cacheStore (c : Client St) (cacheKey : string) (body : bytes)
  (resp : Response) (w : World St) : World St :=
  match cache c with
  | None => w
  | Some ch =>
      let newETag := TrimSpace (Header_ETag resp) in
      mkWorld (clock w) (sent w) (Put ch cacheKey body newETag (store w))
              (trace w ++ [CachePut cacheKey body newETag])
  end.

Definition tooLarge : string :=
  "response too large (exceeds " +:+ itoa (Z.of_N maxResponseSize) +:+ " bytes)".

(** Lines 185 to 241 of [fetchOnce]: what becomes of a response, given
    the cache key and the entry the cache had for it. *)
Definition handleResponse (c : Client St) (cacheKey : string)
  (cached : option (bytes * string)) (resp : Response) (w : World St)
  : result bytes * World St :=
  if (StatusCode resp =? StatusNotModified)%Z then
    match cached with
    | Some (data, _) => (Ok data, w)
    | None =>
        (Err (ErrorResponse (Some resp)
                "304 Not Modified but no cached body available"), w)
    end
  else if (StatusCode resp <? 200)%Z || (299 <? StatusCode resp)%Z then
    let '(b, _, _) := ReadAllLimit (N.shiftl 8 10) (RespBody resp) in
    let message := TrimSpace (string_of_bytes b) in
    let message := if String.eqb message "" then Status resp else message in
    (Err (ErrorResponse (Some resp) message), w)
  else
    let '(body, rerr, after) := ReadAllLimit maxResponseSize (RespBody resp) in
    match rerr with
    | Some m => (Err (Wrap "read response" (LibError m)), w)
    | None =>
        if (len body =? maxResponseSize)%N && (0 <? ReadOne after)%Z then
          (Err (ErrorResponse (Some resp) tooLarge), w)
        else if (len body =? 0)%N then
          (Err (ErrorResponse (Some resp) "empty response body"), w)
        else (Ok body, cacheStore c cacheKey body resp w)
    end.

(** [fetchOnce] performs a single fetch attempt. *)
Definition fetchOnce (c : Client St) (ctx : option Context) (q : Query)
  (endpoint : string) (w : World St) : result bytes * World St :=
  match ctx with
  | None => (Err (QueryError "context must be non-nil"), w)
  | Some ctx =>
  let (cerr, w) := observe ctx w in
  match cerr with
  | Some e => (Err (Wrap "context error" (ContextError e)), w)
  | None =>
  match BuildURL q (baseURL c) endpoint with
  | Err err => (Err (Wrap "build URL" err), w)
  | Ok fullURL =>
  let cacheKey := fullURL in
  let (cached, w) := cacheLookup c cacheKey w in
  match requestError fullURL with
  | Some m => (Err (Wrap "create request" (LibError m)), w)
  | None =>
  let req := newRequest c fullURL cached in
  let (rt, w) := Do c req w in
  match rt with
  | DoError m =>
      let (cerr, w) := observe ctx w in
      match cerr with
      | Some e => (Err (Wrap "request cancelled" (ContextError e)), w)
      | None => (Err (Wrap "request failed" (LibError m)), w)
      end
  | DoResponse resp => handleResponse c cacheKey cached resp w
  end end end end end.

(** How a call of [fetch] ends: it returns, or the goroutine panics. *)
Inductive Outcome :=
| Returned (r : result bytes)
| Panicked (reason : string).

Definition nilDereference : string :=
  "runtime error: invalid memory address or nil pointer dereference".

(** The error after the loop: [fmt.Errorf] with [%w] wraps the last
    error; given a nil operand it only formats it. *)
Definition retriesExceeded (c : Client St) (lastErr : option error) : error :=
  let text := "max retries (" +:+ itoa (maxRetries c) +:+ ") exceeded" in
  match lastErr with
  | Some e => Wrap text e
  | None => LibError (text +:+ ": %!w(<nil>)")
  end.

(** How a round of the loop ends: the function returns or panics, or
    the loop goes on with the new [delay] and [lastErr]. *)
Inductive Round :=
| Exit (o : Outcome)
| Continue (delay : Z) (lastErr : error).

(** The body of the [for] loop of [fetch], for the current values of
    [attempt] and [delay].  Calling a method of a nil context is a nil
    dereference. *)
Definition loopBody (c : Client St) (ctx : option Context) (q : Query)
  (endpoint : string) (attempt delay : Z) (w : World St) : Round * World St :=
  match ctx with
  | None => (Exit (Panicked nilDereference), w)
  | Some cx =>
  let (cerr, w) := observe cx w in
  match cerr with
  | Some e =>
      (Exit (Returned (Err (Wrap "context cancelled" (ContextError e)))), w)
  | None =>
  let '(waited, delay, w) :=
    if (0 <? attempt)%Z then
      let (cerr, w) := observe cx w in
      match cerr with
      | Some e =>
          (Some (Wrap "context cancelled during retry" (ContextError e)),
           delay, w)
      | None => (None, wrap64 (delay * 2), record (Sleep delay) w)
      end
    else (None, delay, w) in
  match waited with
  | Some err => (Exit (Returned (Err err)), w)
  | None =>
  let (r, w) := fetchOnce c ctx q endpoint (record (Attempt attempt) w) in
  match r with
  | Ok data => (Exit (Returned (Ok data)), w)
  | Err err =>
      if negb (shouldRetry (Some err)) then (Exit (Returned (Err err)), w)
      else (Continue delay err, w)
  end end end end.

(** The [for] loop of [fetch] from the test of its condition on, with the
    current values of [attempt], [delay] and [lastErr].  A round of the
    loop uses one unit of [fuel]; the result is [None] when the fuel is
    used up before the loop ends. *)
Fixpoint fetchLoop (fuel : nat) (c : Client St) (ctx : option Context)
  (q : Query) (endpoint : string) (attempt delay : Z)
  (lastErr : option error) (w : World St) : option (Outcome * World St) :=
  match fuel with
  | O => None
  | S fuel' =>
      if (attempt <=? maxRetries c)%Z then
        let (round, w) := loopBody c ctx q endpoint attempt delay w in
        match round with
        | Exit o => Some (o, w)
        | Continue delay err =>
            fetchLoop fuel' c ctx q endpoint (wrap64 (attempt + 1)) delay
                      (Some err) w
        end
      else Some (Returned (Err (retriesExceeded c lastErr)), w)
  end.

(** [fetch]: the loop from [attempt = 0].  When [maxRetries] is below the
    largest [int] the loop ends within [maxRetries + 2] tests of its
    condition. *)
Definition fetch (c : Client St) (ctx : option Context) (q : Query)
  (endpoint : string) (w : World St) : option (Outcome * World St) :=
  fetchLoop (S (Z.to_nat (maxRetries c + 1))) c ctx q endpoint 0
            (retryDelay c) None w.

Definition FetchGP c ctx q w := fetch c ctx q "gp.php" w.
Definition FetchGPFirst c ctx q w := fetch c ctx q "gp-first.php" w.
Definition FetchGPLast c ctx q w := fetch c ctx q "gp-last.php" w.
Definition FetchTable c ctx q w := fetch c ctx q "table.php" w.

End Package.

(** ** Concrete ports, for running the client *)

(** net/url and net/http on the origin [https://celestrak.org] and the
    like: for a base URL that has only a scheme and a host and a path
    that needs neither escaping nor normalisation (the four endpoints of
    the package are such paths), the resolved URL is the origin followed
    by the path, and it is a valid request URL. *)
Definition plainNet : NetLib := {|
  resolvedPath base p := Scheme base +:+ "://" +:+ Host base +:+ p;
  requestError _ := None
|}.

(** A cache that is a finite map from keys to bytes and ETag. *)
Definition mapCache : Cache (gmap string (bytes * string)) :=
  mkCache (fun key m => (m !! key, m)) (fun key data etag m => <[key := (data, etag)]> m).

(** A transport that refuses every request. *)
Definition unreachable : nat -> Request -> RoundTrip :=
  fun _ _ => DoError "dial tcp: connection refused".

(** A transport that answers every request with the same response. *)
Definition always (resp : Response) : nat -> Request -> RoundTrip :=
  fun _ _ => DoResponse resp.

(** The world before the first call, over a given store. *)
Definition start {St} (s : St) : World St := mkWorld 0 0 s [].

(** ** Notions of the specification: queries *)

Definition selectorKeys : list string :=
  ["CATNR"; "INTDES"; "GROUP"; "NAME"; "SPECIAL"].

(** The selector fields that are not empty after trimming, under their
    keys and trimmed, in the order of the fields. *)
Definition activeSelectors (q : Query) : list (string * string) :=
  List.filter (fun kv => negb (String.eqb (snd kv) ""))
    [ ("CATNR", TrimSpace (CATNR q)); ("INTDES", TrimSpace (INTDES q));
      ("GROUP", TrimSpace (GROUP q)); ("NAME", TrimSpace (NAME q));
      ("SPECIAL", TrimSpace (SPECIAL q)) ].

(** The format of a query, [TLE] when none is set. *)
Definition formatOf (q : Query) : Format :=
  if String.eqb (FORMAT q) "" then FormatTLE else FORMAT q.

(** The flags of a query that are set, as parameters, in the order in
    which [addTableFlags] looks at them. *)
Definition enabledFlags (q : Query) : list (string * string) :=
  (if BSTAR (tableFlags q) then [("BSTAR", "1")] else [])
  ++ (if ShowOps (tableFlags q) then [("SHOW-OPS", "1")] else [])
  ++ (if Oldest (tableFlags q) then [("OLDEST", "1")] else [])
  ++ (if Docked (tableFlags q) then [("DOCKED", "1")] else [])
  ++ (if Movers (tableFlags q) then [("MOVERS", "1")] else []).

(** The parameters of a request in the order in which [BuildURL] sets
    them: the selector, [FORMAT], then the table flags for the table
    endpoint. *)
Definition insertionOrder (q : Query) (endpoint key val : string)
  : list (string * string) :=
  [(key, val); ("FORMAT", formatOf q)]
  ++ (if String.eqb endpoint "table.php" then enabledFlags q else []).

Definition key_le (a b : string * string) : Prop := string_le (fst a) (fst b).

#[global] Instance key_le_dec a b : Decision (key_le a b).
Proof. unfold key_le. apply _. Defined.

(** The same parameters by ascending key. *)
Definition keyOrder (q : Query) (endpoint key val : string)
  : list (string * string) :=
  merge_sort key_le (insertionOrder q endpoint key val).

(** The map after [Values.Set] was called for each of the parameters, in
    their order. *)
Definition setAll (ps : list (string * string)) (v : Values) : Values :=
  fold_left (fun v kv => Values_Set (fst kv) (snd kv) v) ps v.

Definition encodePair (kv : string * string) : string :=
  QueryEscape (fst kv) +:+ "=" +:+ QueryEscape (snd kv).

(** The URL of an endpoint with the given parameters, in the given order,
    as its query. *)
Definition urlWith `{NetLib} (base : URL) (endpoint : string)
  (ps : list (string * string)) : string :=
  resolvedPath base ("/NORAD/elements/" +:+ endpoint)
  +:+ "?" +:+ Join (map encodePair ps) "&".


(** ** Notions of the specification: attempts *)

Section Attempts.
Context `{NetLib} {St : Type}.

(** The entry a configured cache returns for a key from the store [s],
    and the store after the lookup. *)
Definition cachedEntry (c : Client St) (key : string) (s : St)
  : option (bytes * string) :=
  match cache c with
  | Some ch => fst (Get ch key s)
  | None => None
  end.

Definition storeAfterGet (c : Client St) (key : string) (s : St) : St :=
  match cache c with
  | Some ch => snd (Get ch key s)
  | None => s
  end.

(** The events of the lookup: one read when a cache is configured. *)
Definition cacheReads (c : Client St) (key : string) : list Event :=
  match cache c with
  | Some _ => [CacheGet key]
  | None => []
  end.

(** The attempt that starts in [w] gets as far as the transport: the
    context is there and live, the URL [url] is built and accepted, and
    the transport is called with the request [req]. *)
Definition requested (c : Client St) (ctx : option Context) (q : Query)
  (endpoint : string) (w : World St) (url : string) (req : Request) : Prop :=
  exists cx,
    ctx = Some cx
    /\ Context_Err cx (clock w) = None
    /\ BuildURL q (baseURL c) endpoint = Ok url
    /\ requestError url = None
    /\ req = newRequest c url (cachedEntry c url (store w)).

(** The world in which the answer of the transport to that request is
    handled: after one observation of the context, the lookup in the
    cache and the request. *)
Definition afterRequest (c : Client St) (url : string) (req : Request)
  (w : World St) : World St :=
  mkWorld (S (clock w)) (S (sent w)) (storeAfterGet c url (store w))
          (trace w ++ cacheReads c url ++ [HttpDo req]).

(** The attempt that starts in [w] receives the response [resp] to its
    request for [url]. *)
Definition answered (c : Client St) (ctx : option Context) (q : Query)
  (endpoint : string) (w : World St) (url : string) (resp : Response) : Prop :=
  exists req,
    requested c ctx q endpoint w url req
    /\ httpClient c (sent w) req = DoResponse resp.

(** The states in which the loop of a call [fetch c ctx q endpoint w0]
    tests its condition: [rounds n attempt delay lastErr w] after [n]
    rounds that all ended in [Continue]. *)
Inductive rounds (c : Client St) (ctx : option Context) (q : Query)
  (endpoint : string) (w0 : World St)
  : nat -> Z -> Z -> option error -> World St -> Prop :=
| rounds_start : rounds c ctx q endpoint w0 0 0 (retryDelay c) None w0
| rounds_next n attempt delay lastErr w delay' err w' :
    rounds c ctx q endpoint w0 n attempt delay lastErr w ->
    (attempt <= maxRetries c)%Z ->
    loopBody c ctx q endpoint attempt delay w = (Continue delay' err, w') ->
    rounds c ctx q endpoint w0 (S n) (wrap64 (attempt + 1)) delay' (Some err) w'.

End Attempts.

(** The first [n] bytes of a body, all of it when it is shorter. *)
Definition firstBytes (n : N) (b : bytes) : bytes := firstn (N.to_nat n) b.

(** The number of calls of [fetchOnce] among the events. *)
Fixpoint attempts (evs : list Event) : nat :=
  match evs with
  | [] => 0
  | Attempt _ :: rest => S (attempts rest)
  | _ :: rest => attempts rest
  end.

(** The number of requests given to the transport among the events. *)
Fixpoint requests (evs : list Event) : nat :=
  match evs with
  | [] => 0
  | HttpDo _ :: rest => S (requests rest)
  | _ :: rest => requests rest
  end.

(** The waits among the events, in their order. *)
Fixpoint sleeps (evs : list Event) : list Z :=
  match evs with
  | [] => []
  | Sleep d :: rest => d :: sleeps rest
  | _ :: rest => sleeps rest
  end.

(** The writes to the cache among the events. *)
Fixpoint cacheWrites (evs : list Event) : list (string * bytes * string) :=
  match evs with
  | [] => []
  | CachePut key data etag :: rest => (key, data, etag) :: cacheWrites rest
  | _ :: rest => cacheWrites rest
  end.

Definition total (ds : list Z) : Z := fold_right Z.add 0%Z ds.

(** The waits [d], [2d], [4d], ... before the attempts 2 to [m + 1]. *)
Definition backoff (d : Z) (m : nat) : list Z :=
  map (fun k => (d * 2 ^ Z.of_nat k)%Z) (seq 0 m).

(** ** Notions of the specification: the events of a call, in their order *)

(** The store after [n] lookups of [key] in the cache. *)
Definition storeAfterGets {St} (c : Client St) (key : string) (n : nat)
  (s : St) : St :=
  Nat.iter n (storeAfterGet c key) s.

(** The events of round [i], counted from 0, of a call for [url] with
    the initial delay [d] that starts with the store [s], when every
    round before it made its request and wrote nothing to the cache:
    unless the round is the first, the wait of [d * 2^(i-1)]; then the
    attempt, its lookup in the cache and its request. *)
Definition roundEvents {St} (c : Client St) (url : string) (d : Z) (s : St)
  (i : nat) : list Event :=
  (match i with
   | O => []
   | S j => [Sleep (d * 2 ^ Z.of_nat j)]
   end)
  ++ [Attempt (Z.of_nat i)]
  ++ cacheReads c url
  ++ [HttpDo (newRequest c url (cachedEntry c url (storeAfterGets c url i s)))].

(** The events of the rounds 0 to [n - 1], one round after the other. *)
Definition roundsEvents {St} (c : Client St) (url : string) (d : Z) (s : St)
  (n : nat) : list Event :=
  concat (map (roundEvents c url d s) (seq 0 n)).

(** The event of the write to the cache after an attempt that succeeds
    with the body of [resp]. *)
Definition cachePuts {St} (c : Client St) (url : string) (resp : Response)
  : list Event :=
  match cache c with
  | Some _ =>
      [CachePut url (content (RespBody resp)) (TrimSpace (Header_ETag resp))]
  | None => []
  end.

(** What the events of one attempt are like: no wait and no mark of an
    attempt among them, and at most one request. *)
Definition attemptBody (evs : list Event) : Prop :=
  attempts evs = 0%nat /\ sleeps evs = [] /\ (requests evs <= 1)%nat.

(** The events of the rounds of the loop from round [i] on, given the
    current [delay] and, for each round, the events of its attempt: a
    round that is not the first starts with the wait of [delay], which is
    doubled (in 64 bits) for the next round; then comes the attempt. *)
Fixpoint loopEvents (i : nat) (delay : Z) (bodies : list (list Event))
  : list Event :=
  match bodies with
  | [] => []
  | body :: rest =>
      (match i with
       | O => []
       | S _ => [Sleep delay]
       end)
      ++ [Attempt (Z.of_nat i)]
      ++ body
      ++ loopEvents (S i)
           (match i with
            | O => delay
            | S _ => wrap64 (delay * 2)
            end) rest
  end.

(** ** Example values *)

Definition stationsTable : Query :=
  mkQuery "" "" "STATIONS" "" "" FormatXML
          (mkTableFlags false true false false false).

(** [Query{}] *)
Definition emptyQuery : Query := mkQuery "" "" "" "" "" "" noFlags.

Definition iss : Query := QueryByCATNR "25544" FormatJSON.

Definition issURL : string :=
  "https://celestrak.org/NORAD/elements/gp.php?CATNR=25544&FORMAT=JSON".

Definition response (status : string) (code : Z) (etag : string)
  (body : string) : Response :=
  mkResponse status code etag (mkBody (bytes_of_string body) None).

Definition refusal : nat -> string := fun _ => "dial tcp: connection refused".

(** The client of [NewClient] on a transport that refuses every request. *)
Definition offline : Client unit := NewClient unreachable.

Definition notFound : Response :=
  response "404 Not Found" 404 "" "  No GP data found  ".

Definition notModified : Response := response "304 Not Modified" 304 "" "".

(** A success without an [ETag] header. *)
Definition plainOK : Response := response "200 OK" 200 "" "[]".

(** A success whose body has exactly [maxResponseSize] bytes. *)
Definition atCap : Response :=
  mkResponse "200 OK" 200 ""
    (mkBody (repeat "x"%byte (N.to_nat maxResponseSize)) None).

(** A client with a map as its cache. *)
Definition caching (resp : Response)
  : Client (gmap string (bytes * string)) :=
  WithCache (NewClient (always resp)) (Some mapCache).

(** A store that holds an entry for the URL of [iss]. *)
Definition warm : gmap string (bytes * string) :=
  {[ issURL := (bytes_of_string "[1]", "abc") ]}.

Definition stations : Query := QueryByGROUP "STATIONS" FormatTLE.

(** A retry delay of 2^62 nanoseconds, about 146 years. *)
Definition longDelay : Z := 2 ^ 62.
(** ** The other predicates of errors.go, and further notions *)

Definition StatusNotFound : Z := 404.
Definition StatusTooManyRequests : Z := 429.

(** The method [IsNotFound] of [ErrorResponse]. *)
Definition IsNotFound (r : option Response) : bool :=
  match r with
  | Some resp => (StatusCode resp =? StatusNotFound)%Z
  | None => false
  end.

(** The method [IsRateLimit] of [ErrorResponse]. *)
Definition IsRateLimit (r : option Response) : bool :=
  match r with
  | Some resp => (StatusCode resp =? StatusTooManyRequests)%Z
  | None => false
  end.

(** The method [IsClientError] of [ErrorResponse]. *)
Definition IsClientError (r : option Response) : bool :=
  match r with
  | Some resp => (400 <=? StatusCode resp)%Z && (StatusCode resp <? 500)%Z
  | None => false
  end.

(** The query with its field [TableFlags] assigned. *)
Definition withTableFlags (q : Query) (flags : TableFlags) : Query :=
  mkQuery (CATNR q) (INTDES q) (GROUP q) (NAME q) (SPECIAL q) (FORMAT q) flags.

(** The parameter names of the table flags, each with the field that
    [addTableFlags] tests for it. *)
Definition flagParams : list (string * (TableFlags -> bool)) :=
  [ ("BSTAR", BSTAR); ("SHOW-OPS", ShowOps); ("OLDEST", Oldest);
    ("DOCKED", Docked); ("MOVERS", Movers) ].

(** The world in which the attempt of the first round of [fetch] starts:
    after the check of the context at the top of the loop. *)
Definition firstAttempt {St} (cx : Context) (w : World St) : World St :=
  record (Attempt 0) (snd (observe cx w)).

(** The world in which the attempt of a round starts under a context
    that is live: after the check of the context, and from the second
    round on after the wait of [delay]. *)
Definition attemptWorld {St} (attempt delay : Z) (w : World St) : World St :=
  mkWorld (if (0 <? attempt)%Z then S (S (clock w)) else S (clock w))
          (sent w) (store w)
          (trace w ++ (if (0 <? attempt)%Z then [Sleep delay] else [])
                   ++ [Attempt attempt]).

(** A transport that refuses its first [k] requests and answers the
    others with the same response. *)
Definition flaky (k : nat) (resp : Response) : nat -> Request -> RoundTrip :=
  fun n _ => if (n <? k)%nat then DoError (refusal n) else DoResponse resp.

Definition unavailable : Response :=
  response "503 Service Unavailable" 503 "" "try later".

Definition issJSON : Response :=
  response "200 OK" 200 " W/abc " "[{}]".

(** A body that breaks off after three bytes. *)
Definition brokenOff : Response :=
  mkResponse "200 OK" 200 ""
    (mkBody (bytes_of_string "[{}") (Some "unexpected EOF")).

Definition emptyOK : Response := response "200 OK" 200 "" "".

(** The message of the [ErrorResponse] for a response with an error
    status: lines 199 to 203 of [fetchOnce]. *)
Definition statusMessage (resp : Response) : string :=
  let trimmed :=
    TrimSpace (string_of_bytes (firstBytes 8192 (content (RespBody resp)))) in
  if String.eqb trimmed "" then Status resp else trimmed.

(** An answer of the transport that the loop takes for transient: no
    response at all, or a response with a status from 500 on. *)
Definition transient (rt : RoundTrip) : bool :=
  match rt with
  | DoError _ => true
  | DoResponse resp => (500 <=? StatusCode resp)%Z
  end.

(** The error of an attempt that gets such an answer under a live
    context. *)
Definition transientError (rt : RoundTrip) : error :=
  match rt with
  | DoError m => Wrap "request failed" (LibError m)
  | DoResponse resp => ErrorResponse (Some resp) (statusMessage resp)
  end.

(** A transport that answers as a script says, whatever the request. *)
Definition scripted (script : nat -> RoundTrip) : nat -> Request -> RoundTrip :=
  fun n _ => script n.

(** A transport that answers its first request with [resp] and every
    later one with 304. *)
Definition revalidating (resp : Response) : nat -> Request -> RoundTrip :=
  fun n _ => DoResponse (if (n =? 0)%nat then resp else notModified).

(** A context that is live when it is first looked at and cancelled from
    then on. *)
Definition cancelledSoon : Context := DoneFrom 1 Canceled.

(** * Properties *)

(** ** The order of strings *)

Lemma ascii_compare_refl a : Ascii.compare a a = Eq.
Proof. unfold Ascii.compare. apply N.compare_refl. Qed.

Lemma string_compare_refl s : String.compare s s = Eq.
Proof.
  induction s as [|a s IH]; [reflexivity|].
  cbn. rewrite ascii_compare_refl. exact IH.
Qed.

Lemma string_compare_trans_le s1 : forall s2 s3,
  String.compare s1 s2 <> Gt -> String.compare s2 s3 <> Gt ->
  String.compare s1 s3 <> Gt.
Proof.
  induction s1 as [|a s1 IH]; intros [|b s2] [|c s3]; cbn; try congruence.
  unfold Ascii.compare.
  destruct (N.compare_spec (N_of_ascii a) (N_of_ascii b)) as [Hab|Hab|Hab];
    destruct (N.compare_spec (N_of_ascii b) (N_of_ascii c)) as [Hbc|Hbc|Hbc];
    destruct (N.compare_spec (N_of_ascii a) (N_of_ascii c)) as [Hac|Hac|Hac];
    try congruence; try lia; try (intros _ _; discriminate).
  apply IH.
Qed.

Lemma string_le_alt a b : string_le a b <-> String.compare a b <> Gt.
Proof.
  unfold string_le, String.leb. destruct (String.compare a b); split; congruence.
Qed.

Lemma string_le_refl : Reflexive string_le.
Proof. intros s. apply string_le_alt. rewrite string_compare_refl. discriminate. Qed.

Lemma string_le_trans : Transitive string_le.
Proof.
  intros a b c Hab Hbc. apply string_le_alt.
  apply string_compare_trans_le with b; apply string_le_alt; assumption.
Qed.

Lemma string_le_total : Total string_le.
Proof. intros a b. apply String.leb_total. Qed.

Lemma string_le_antisym : AntiSymm eq string_le.
Proof. intros a b. apply String.leb_antisym. Qed.

Lemma key_le_trans : Transitive key_le.
Proof. intros a b c. unfold key_le. apply string_le_trans. Qed.

Lemma key_le_total : Total key_le.
Proof. intros a b. unfold key_le. apply string_le_total. Qed.

(** ** [Values.Encode] *)

Lemma append_empty s t : s +:+ t = "" -> s = "" /\ t = "".
Proof. destruct s; cbn; [auto | discriminate]. Qed.

Lemma encodePair_nonempty kv : encodePair kv <> "".
Proof.
  unfold encodePair. intros Hx. apply append_empty in Hx as [_ Hx].
  discriminate.
Qed.

Lemma Join_nonempty p rest sep : p <> "" -> Join (p :: rest) sep <> "".
Proof.
  intros Hp. destruct rest; cbn; [exact Hp|].
  intros Hx. apply append_empty in Hx as [Hx _]. contradiction.
Qed.

Lemma fmap_as_map {A B} (f : A -> B) (l : list A) : f <$> l = map f l.
Proof. induction l as [|x l IH]; [reflexivity|]. cbn. congruence. Qed.

(** The map that holds one value for each of the given parameters. *)
Lemma setAll_list_to_map ps :
  setAll ps ∅ = list_to_map (map (fun kv => (fst kv, [snd kv])) (rev ps)).
Proof.
  unfold setAll, list_to_map. generalize (∅ : Values).
  induction ps as [|kv ps IH]; intros v; [reflexivity|].
  cbn [fold_left rev]. rewrite map_app, foldr_app. cbn [map foldr].
  apply IH.
Qed.

(** [Values.Encode] writes parameters with distinct keys by ascending
    key, in whatever order they were set. *)
Lemma Values_Encode_setAll ps :
  NoDup (map fst ps) ->
  Values_Encode (setAll ps ∅) = Join (map encodePair (merge_sort key_le ps)) "&".
Proof.
  intros Hnd. rewrite setAll_list_to_map.
  set (ps' := map (fun kv => (fst kv, [snd kv])) (rev ps)).
  set (v := list_to_map ps' : Values).
  set (L := merge_sort key_le ps).
  assert (Hkeys' : ps'.*1 = rev (map fst ps)).
  { unfold ps'. rewrite fmap_as_map, map_map, map_rev. reflexivity. }
  assert (Hnd' : NoDup ps'.*1).
  { rewrite Hkeys'. apply NoDup_ListNoDup, NoDup_rev, NoDup_ListNoDup, Hnd. }
  assert (HL : L ≡ₚ ps) by apply merge_sort_Permutation.
  assert (Hsorted : sortedKeys v = map fst L).
  { unfold sortedKeys.
    apply (@StronglySorted_unique _ string_le string_le_antisym).
    - apply StronglySorted_merge_sort;
        [exact string_le_trans | exact string_le_total].
    - apply (StronglySorted_fmap fst key_le string_le); [auto|].
      apply StronglySorted_merge_sort; [exact key_le_trans | exact key_le_total].
    - rewrite merge_sort_Permutation.
      rewrite <- (fmap_as_map fst (map_to_list v)).
      unfold v. rewrite (map_to_list_to_map ps' Hnd'), Hkeys'.
      rewrite <- Permutation_rev. apply Permutation_map. symmetry. exact HL. }
  assert (Hlook : forall kv, In kv L -> v !! fst kv = Some [snd kv]).
  { intros [k x] Hin. unfold v. apply elem_of_list_to_map_1; [exact Hnd'|].
    unfold ps'. apply list_elem_of_In, in_map_iff. exists (k, x).
    split; [reflexivity|]. apply in_rev. rewrite rev_involutive.
    apply list_elem_of_In. rewrite <- HL. apply list_elem_of_In, Hin. }
  unfold Values_Encode, encodedPairs. rewrite Hsorted. f_equal.
  clearbody L v. clear -Hlook. induction L as [|kv L IH]; [reflexivity|].
  cbn [map flat_map]. rewrite (Hlook kv) by (left; reflexivity).
  cbn [default map app]. f_equal. apply IH. intros kv' Hin. apply Hlook.
  right. exact Hin.
Qed.

(** ** The query builder *)

Lemma eqb_empty_false s : s <> "" -> String.eqb s "" = false.
Proof. intros Hs. apply String.eqb_neq. exact Hs. Qed.

(** What [singleSelector] returns, by the selector fields that are set. *)
Lemma singleSelector_active q :
  match activeSelectors q with
  | [] => singleSelector q = Err (QueryError missingSelector)
  | [(key, val)] => singleSelector q = Ok (key, val)
  | _ :: _ :: _ => singleSelector q = Err (QueryError ambiguousSelector)
  end.
Proof.
  pose (put := fun (k v : string) (empty : bool) (st : selection) =>
    if empty || notNil (sel_err st) then st
    else if negb (String.eqb (sel_key st) "") then
      mkSelection (sel_key st) (sel_val st) (Some (QueryError ambiguousSelector))
    else mkSelection k v (sel_err st)).
  assert (Hput : forall k v st,
    set k v st = put k (TrimSpace v) (String.eqb (TrimSpace v) "") st)
    by reflexivity.
  unfold activeSelectors, singleSelector. rewrite !Hput. clear Hput.
  generalize (TrimSpace (CATNR q)) (TrimSpace (INTDES q))
    (TrimSpace (GROUP q)) (TrimSpace (NAME q)) (TrimSpace (SPECIAL q)).
  intros a b c d e. cbn [List.filter snd].
  destruct (String.eqb a ""), (String.eqb b ""), (String.eqb c ""),
    (String.eqb d ""), (String.eqb e ""); subst put; vm_compute; reflexivity.
Qed.

Lemma singleSelector_Ok q key val :
  singleSelector q = Ok (key, val) ->
  activeSelectors q = [(key, val)] /\ In key selectorKeys.
Proof.
  intros Hs. pose proof (singleSelector_active q) as Ha.
  destruct (activeSelectors q) as [|[k v] [|p rest]] eqn:Hact;
    rewrite Hs in Ha; try discriminate.
  injection Ha as -> ->. split; [reflexivity|].
  assert (Hin : In (k, v) (activeSelectors q)) by (rewrite Hact; left; reflexivity).
  unfold activeSelectors in Hin. apply filter_In in Hin as [Hin _].
  unfold selectorKeys. cbn in Hin |- *.
  intuition (match goal with Hx : (_, _) = (_, _) |- _ => injection Hx as <- _ end; auto).
Qed.

(** [BuildURL] calls [Set] for the parameters in their insertion order. *)
Lemma queryParams_setAll q endpoint key val :
  queryParams q endpoint key val = setAll (insertionOrder q endpoint key val) ∅.
Proof.
  unfold queryParams, insertionOrder, addTableFlags, enabledFlags, formatOf, setAll.
  destruct (String.eqb endpoint "table.php"); [|reflexivity].
  destruct (tableFlags q) as [[] [] [] [] []]; reflexivity.
Qed.

(** No key is set twice. *)
Lemma insertionOrder_NoDup q endpoint key val :
  In key selectorKeys -> NoDup (map fst (insertionOrder q endpoint key val)).
Proof.
  intros Hkey. unfold insertionOrder, enabledFlags.
  unfold selectorKeys in Hkey. cbn in Hkey.
  destruct (String.eqb endpoint "table.php");
    [destruct (tableFlags q) as [[] [] [] [] []]|];
    cbn [BSTAR ShowOps Oldest Docked Movers app map fst];
    (destruct Hkey as [<-|[<-|[<-|[<-|[<-|[]]]]]]);
    apply (bool_decide_unpack _); vm_compute; exact I.
Qed.

(** [BuildURL] on a query with a selector: the parameters come out by
    ascending key. *)
Lemma BuildURL_selected `{NetLib} q base endpoint key val :
  endpoint <> "" ->
  singleSelector q = Ok (key, val) ->
  BuildURL q (Some base) endpoint
  = Ok (urlWith base endpoint (keyOrder q endpoint key val)).
Proof.
  intros Hep Hs. destruct (singleSelector_Ok _ _ _ Hs) as [_ Hkey].
  unfold BuildURL. rewrite (eqb_empty_false _ Hep), Hs.
  rewrite queryParams_setAll, Values_Encode_setAll
    by (apply insertionOrder_NoDup; exact Hkey).
  unfold resolveString, urlWith, keyOrder. cbn [Path RawQuery].
  rewrite eqb_empty_false; [reflexivity|].
  pose proof (merge_sort_Permutation key_le (insertionOrder q endpoint key val)) as Hp.
  destruct (merge_sort key_le (insertionOrder q endpoint key val)) as [|kv L].
  - apply Permutation_nil in Hp. discriminate.
  - cbn [map]. apply Join_nonempty, encodePair_nonempty.
Qed.

(** The keys of the parameters in ascending order are the parameters of
    the insertion order, sorted. *)
Lemma keyOrder_sorted q endpoint key val :
  keyOrder q endpoint key val ≡ₚ insertionOrder q endpoint key val
  /\ StronglySorted key_le (keyOrder q endpoint key val).
Proof.
  split; [apply merge_sort_Permutation|].
  apply StronglySorted_merge_sort; [exact key_le_trans | exact key_le_total].
Qed.

(** C3, as amended: for every query with a valid selector, every base URL
    and every non-empty endpoint, [BuildURL] returns the URL whose query
    holds the selector, [FORMAT] and (for the table endpoint) the enabled
    table flags in ascending byte order of their keys, which is the order
    in which [Values.Encode] writes them, not the order of insertion. *)
Theorem BuildURL_parameters_by_key `{NetLib} q base endpoint key val :
  endpoint <> "" ->
  singleSelector q = Ok (key, val) ->
  BuildURL q (Some base) endpoint
  = Ok (urlWith base endpoint (keyOrder q endpoint key val))
  /\ keyOrder q endpoint key val ≡ₚ insertionOrder q endpoint key val
  /\ StronglySorted key_le (keyOrder q endpoint key val).
Proof.
  intros Hep Hs. split; [|apply keyOrder_sorted].
  apply BuildURL_selected; assumption.
Qed.

(** C4: with a base URL and a non-empty endpoint, [BuildURL] fails with
    the "missing selector" error when no selector field is left after
    trimming, with the "set exactly one" error when two or more are, and
    when exactly one is, it returns a URL whose parameters contain that
    selector with its trimmed value, contain [FORMAT], and contain no
    other selector. *)
Theorem BuildURL_selector_cardinality `{NetLib} q base endpoint :
  endpoint <> "" ->
  match activeSelectors q with
  | [] => BuildURL q (Some base) endpoint = Err (QueryError missingSelector)
  | [(key, val)] =>
      exists ps,
        BuildURL q (Some base) endpoint = Ok (urlWith base endpoint ps)
        /\ In (key, val) ps
        /\ In ("FORMAT", formatOf q) ps
        /\ (forall k v, In (k, v) ps -> In k selectorKeys -> (k, v) = (key, val))
  | _ :: _ :: _ =>
      BuildURL q (Some base) endpoint = Err (QueryError ambiguousSelector)
  end.
Proof.
  intros Hep. pose proof (singleSelector_active q) as Hs.
  destruct (activeSelectors q) as [|[key val] [|p rest]].
  - unfold BuildURL. rewrite (eqb_empty_false _ Hep), Hs. reflexivity.
  - exists (keyOrder q endpoint key val).
    destruct (keyOrder_sorted q endpoint key val) as [Hperm _].
    split; [apply BuildURL_selected; assumption|].
    assert (Hin : forall kv, In kv (keyOrder q endpoint key val)
                             <-> In kv (insertionOrder q endpoint key val)).
    { intros kv. rewrite <- !list_elem_of_In, Hperm. reflexivity. }
    repeat split.
    + apply Hin. left. reflexivity.
    + apply Hin. right. left. reflexivity.
    + intros k v Hkv Hk. apply Hin in Hkv. unfold insertionOrder in Hkv.
      destruct Hkv as [Hkv|[Hkv|Hkv]]; [congruence| |].
      * injection Hkv as <- _. unfold selectorKeys in Hk. cbn in Hk.
        intuition discriminate.
      * exfalso. destruct (String.eqb endpoint "table.php"); [|destruct Hkv].
        unfold enabledFlags in Hkv. rewrite !in_app_iff in Hkv.
        unfold selectorKeys in Hk. cbn in Hk.
        destruct (tableFlags q) as [[] [] [] [] []]; cbn in Hkv;
          intuition (try congruence).
  - unfold BuildURL. rewrite (eqb_empty_false _ Hep), Hs. reflexivity.
Qed.

Lemma BuildURL_parameters_by_key_witness :
  "table.php" <> "" /\
  singleSelector stationsTable = Ok ("GROUP", "STATIONS") /\
  BuildURL (H := plainNet) stationsTable (Some defaultBaseURL) "table.php"
  = Ok (urlWith (H := plainNet) defaultBaseURL "table.php"
          (keyOrder stationsTable "table.php" "GROUP" "STATIONS")).
Proof.
  assert (Hep : "table.php" <> "") by discriminate.
  assert (Hs : singleSelector stationsTable = Ok ("GROUP", "STATIONS"))
    by (vm_compute; reflexivity).
  split; [exact Hep|]. split; [exact Hs|].
  exact (proj1 (BuildURL_parameters_by_key (H := plainNet) stationsTable
                  defaultBaseURL "table.php" "GROUP" "STATIONS" Hep Hs)).
Defined.

Example BuildURL_stations_table :
  BuildURL (H := plainNet) stationsTable (Some defaultBaseURL) "table.php"
  = Ok "https://celestrak.org/NORAD/elements/table.php?FORMAT=XML&GROUP=STATIONS&SHOW-OPS=1".
Proof. vm_compute. reflexivity. Qed.

(** C3, as stated, fails: a query by group on [gp.php] gets [FORMAT]
    before [GROUP], while the insertion order has the selector first. *)
Lemma BuildURL_insertion_order_fails :
  singleSelector stations = Ok ("GROUP", "STATIONS")
  /\ BuildURL (H := plainNet) stations (Some defaultBaseURL) "gp.php"
     = Ok "https://celestrak.org/NORAD/elements/gp.php?FORMAT=TLE&GROUP=STATIONS"
  /\ urlWith (H := plainNet) defaultBaseURL "gp.php"
       (insertionOrder stations "gp.php" "GROUP" "STATIONS")
     = "https://celestrak.org/NORAD/elements/gp.php?GROUP=STATIONS&FORMAT=TLE"
  /\ BuildURL (H := plainNet) stations (Some defaultBaseURL) "gp.php"
     <> Ok (urlWith (H := plainNet) defaultBaseURL "gp.php"
              (insertionOrder stations "gp.php" "GROUP" "STATIONS")).
Proof.
  split; [vm_compute; reflexivity|]. split; [vm_compute; reflexivity|].
  split; [vm_compute; reflexivity|]. vm_compute. discriminate.
Qed.

Lemma BuildURL_selector_cardinality_witness :
  "gp.php" <> "" /\
  exists ps,
    BuildURL (H := plainNet) (QueryByCATNR " 25544 " FormatJSON)
      (Some defaultBaseURL) "gp.php"
    = Ok (urlWith (H := plainNet) defaultBaseURL "gp.php" ps)
    /\ In ("CATNR", "25544") ps
    /\ In ("FORMAT", "JSON") ps
    /\ (forall k v, In (k, v) ps -> In k selectorKeys -> (k, v) = ("CATNR", "25544")).
Proof.
  assert (Hep : "gp.php" <> "") by discriminate.
  split; [exact Hep|].
  exact (BuildURL_selector_cardinality (H := plainNet)
           (QueryByCATNR " 25544 " FormatJSON) defaultBaseURL "gp.php" Hep).
Defined.

(** ** A single attempt *)

Lemma readN_firstn {A} (l : list A) : forall n,
  readN n l = (firstn (N.to_nat n) l, skipn (N.to_nat n) l).
Proof.
  induction l as [|x l IH]; intros n.
  - cbn. rewrite firstn_nil, skipn_nil. reflexivity.
  - cbn [readN]. destruct (N.eqb_spec n 0) as [->|Hn]; [reflexivity|].
    rewrite IH. replace (N.to_nat n) with (S (N.to_nat (N.pred n))) by lia.
    reflexivity.
Qed.

Lemma len_firstn {A} (n : N) (l : list A) :
  len (firstn (N.to_nat n) l) = N.min n (len l).
Proof. unfold len. rewrite length_firstn. lia. Qed.

(** What [ReadAllLimit] reads: the first [n] bytes, with the error of the
    body when the body ends before them. *)
Lemma ReadAllLimit_spec n body :
  ReadAllLimit n body
  = (firstBytes n (content body),
     if (len (content body) <? n)%N then broken body else None,
     mkBody (skipn (N.to_nat n) (content body)) (broken body)).
Proof.
  unfold ReadAllLimit, firstBytes. rewrite readN_firstn, len_firstn.
  repeat f_equal.
  destruct (N.ltb_spec (N.min n (len (content body))) n),
    (N.ltb_spec (len (content body)) n); try reflexivity; lia.
Qed.

Section AttemptProperties.
Context `{NetLib} {St : Type}.
Implicit Types (c : Client St) (w : World St).

Lemma cacheLookup_spec c key w :
  cacheLookup c key w
  = (cachedEntry c key (store w),
     mkWorld (clock w) (sent w) (storeAfterGet c key (store w))
             (trace w ++ cacheReads c key)).
Proof.
  unfold cacheLookup, cachedEntry, storeAfterGet, cacheReads.
  destruct (cache c) as [ch|].
  - destruct (Get ch key (store w)); reflexivity.
  - rewrite app_nil_r. destruct w; reflexivity.
Qed.

(** An attempt that gets as far as the transport ends as the answer of
    the transport decides. *)
Lemma fetchOnce_requested c ctx q endpoint w url req :
  requested c ctx q endpoint w url req ->
  exists cx, ctx = Some cx /\
  fetchOnce c ctx q endpoint w
  = match httpClient c (sent w) req with
    | DoError m =>
        (match Context_Err cx (S (clock w)) with
         | Some e => Err (Wrap "request cancelled" (ContextError e))
         | None => Err (Wrap "request failed" (LibError m))
         end,
         mkWorld (S (S (clock w))) (S (sent w))
                 (storeAfterGet c url (store w))
                 (trace w ++ cacheReads c url ++ [HttpDo req]))
    | DoResponse resp =>
        handleResponse c url (cachedEntry c url (store w)) resp
                       (afterRequest c url req w)
    end.
Proof.
  intros (cx & -> & Hlive & Hurl & Hreq & ->). exists cx. split; [reflexivity|].
  unfold fetchOnce, observe. rewrite Hlive, Hurl, cacheLookup_spec, Hreq.
  cbn [store clock sent trace]. unfold Do. cbn [store clock sent trace].
  rewrite <- app_assoc.
  destruct (httpClient c (sent w) _) as [m|resp]; [|reflexivity].
  unfold observe. cbn [store clock sent trace].
  destruct (Context_Err cx (S (clock w))); reflexivity.
Qed.

Lemma fetchOnce_answered c ctx q endpoint w url resp :
  answered c ctx q endpoint w url resp ->
  exists req,
    requested c ctx q endpoint w url req
    /\ fetchOnce c ctx q endpoint w
       = handleResponse c url (cachedEntry c url (store w)) resp
                        (afterRequest c url req w).
Proof.
  intros (req & Hreq & Hdo). exists req. split; [exact Hreq|].
  destruct (fetchOnce_requested _ _ _ _ _ _ _ Hreq) as (cx & _ & ->).
  rewrite Hdo. reflexivity.
Qed.

(** C7: an attempt that receives a response whose status is neither 2xx
    nor 304 returns an [ErrorResponse] that carries the response and, as
    its message, the first 8 KiB of the body (all of it when it is
    shorter) trimmed of white space, or the status line when that is
    empty; [shouldRetry] accepts that error if and only if the status is
    at least 500. *)
Theorem fetchOnce_error_status c ctx q endpoint w url resp :
  answered c ctx q endpoint w url resp ->
  StatusCode resp <> 304%Z ->
  (StatusCode resp < 200 \/ 299 < StatusCode resp)%Z ->
  let trimmed :=
    TrimSpace (string_of_bytes (firstBytes 8192 (content (RespBody resp)))) in
  let err :=
    ErrorResponse (Some resp)
      (if String.eqb trimmed "" then Status resp else trimmed) in
  fst (fetchOnce c ctx q endpoint w) = Err err
  /\ (shouldRetry (Some err) = true <-> (500 <= StatusCode resp)%Z).
Proof.
  intros Hans H304 Hcode trimmed err.
  destruct (fetchOnce_answered _ _ _ _ _ _ _ Hans) as (req & _ & ->).
  unfold handleResponse, StatusNotModified.
  rewrite (proj2 (Z.eqb_neq _ _) H304).
  replace ((StatusCode resp <? 200)%Z || (299 <? StatusCode resp)%Z) with true
    by (symmetry; apply orb_true_iff; rewrite Z.ltb_lt, Z.ltb_lt; exact Hcode).
  rewrite ReadAllLimit_spec. cbn [fst]. split; [reflexivity|].
  unfold err, shouldRetry, IsQueryError, IsServerError.
  apply Z.leb_le.
Qed.

(** C8: an attempt that receives 304 Not Modified returns the bytes the
    cache held for the URL when it was asked before the request, and
    writes nothing to the cache; when the cache held nothing (or there is
    no cache) the attempt fails with an [ErrorResponse], which
    [shouldRetry] refuses. *)
Theorem fetchOnce_not_modified c ctx q endpoint w url resp :
  answered c ctx q endpoint w url resp ->
  StatusCode resp = 304%Z ->
  let r := fst (fetchOnce c ctx q endpoint w) in
  let w' := snd (fetchOnce c ctx q endpoint w) in
  match cachedEntry c url (store w) with
  | Some (data, _) =>
      r = Ok data
      /\ (exists req, trace w' = (trace w ++ [CacheGet url; HttpDo req])%list)
      /\ store w' = storeAfterGet c url (store w)
  | None =>
      exists err,
        r = Err err
        /\ err = ErrorResponse (Some resp)
                   "304 Not Modified but no cached body available"
        /\ shouldRetry (Some err) = false
  end.
Proof.
  intros Hans H304 r w'. subst r w'.
  destruct (fetchOnce_answered _ _ _ _ _ _ _ Hans) as (req & _ & ->).
  unfold handleResponse, StatusNotModified. rewrite H304. cbn [Z.eqb Pos.eqb].
  unfold cachedEntry, afterRequest, cacheReads.
  destruct (cache c) as [ch|]; [destruct (fst (Get ch url (store w))) as [[data etag]|]|].
  - cbn [fst snd trace store]. split; [reflexivity|]. split; [|reflexivity].
    exists req. reflexivity.
  - eexists. split; [reflexivity|]. split; [reflexivity|].
    unfold shouldRetry, IsQueryError, IsServerError. rewrite H304. reflexivity.
  - eexists. split; [reflexivity|]. split; [reflexivity|].
    unfold shouldRetry, IsQueryError, IsServerError. rewrite H304. reflexivity.
Qed.

Example tooLarge_message :
  tooLarge = "response too large (exceeds 104857600 bytes)".
Proof. reflexivity. Qed.

(** C9: an attempt that receives a 2xx response fails with the "response
    too large" [ErrorResponse] when the body has more bytes than the cap
    of 100 MiB, returns the whole body when the body has exactly as many
    bytes as the cap and ends there, and never returns anything but the
    whole body. *)
Theorem fetchOnce_size_cap c ctx q endpoint w url resp :
  answered c ctx q endpoint w url resp ->
  (200 <= StatusCode resp <= 299)%Z ->
  let r := fst (fetchOnce c ctx q endpoint w) in
  let data := content (RespBody resp) in
  ((maxResponseSize < len data)%N ->
   r = Err (ErrorResponse (Some resp) tooLarge))
  /\ (len data = maxResponseSize -> broken (RespBody resp) = None ->
      r = Ok data)
  /\ (forall body, r = Ok body -> body = data).
Proof.
  intros Hans Hcode r data. subst r.
  destruct (fetchOnce_answered _ _ _ _ _ _ _ Hans) as (req & _ & ->).
  unfold handleResponse, StatusNotModified.
  rewrite (proj2 (Z.eqb_neq (StatusCode resp) 304)) by lia.
  rewrite (proj2 (Z.ltb_ge (StatusCode resp) 200)) by lia.
  rewrite (proj2 (Z.ltb_ge 299 (StatusCode resp))) by lia.
  cbn [orb]. rewrite ReadAllLimit_spec. fold data.
  assert (Hmax : (0 < maxResponseSize)%N) by reflexivity.
  unfold firstBytes, ReadOne. cbn [content].
  destruct (N.ltb_spec (len data) maxResponseSize) as [Hlt|Hge].
  - (* the body ends before the cap *)
    rewrite firstn_all2 by (unfold len in Hlt; lia).
    split; [intros Hbig; lia|]. split; [intros Heq; lia|].
    destruct (broken (RespBody resp)); [discriminate|].
    rewrite (proj2 (N.eqb_neq (len data) maxResponseSize)) by lia.
    cbn [andb]. destruct (len data =? 0)%N; [discriminate|].
    cbn [fst]. congruence.
  - rewrite len_firstn, N.min_l by exact Hge. rewrite N.eqb_refl. cbn [andb].
    destruct (skipn (N.to_nat maxResponseSize) data) as [|x rest] eqn:Hrest.
    + (* exactly the cap *)
      assert (Hlen : len data = maxResponseSize).
      { apply (f_equal (@length _)) in Hrest. rewrite length_skipn in Hrest.
        cbn in Hrest. unfold len in *. lia. }
      cbn [Z.ltb Z.compare].
      rewrite (proj2 (N.eqb_neq maxResponseSize 0)) by lia.
      rewrite firstn_all2 by (unfold len in Hlen; lia).
      split; [intros Hbig; lia|]. split; [intros _ _; reflexivity|].
      cbn [fst]. congruence.
    + (* more than the cap *)
      assert (Hlen : (maxResponseSize < len data)%N).
      { apply (f_equal (@length _)) in Hrest. rewrite length_skipn in Hrest.
        cbn in Hrest. unfold len in *. lia. }
      cbn [Z.ltb Z.compare fst].
      split; [intros _; reflexivity|]. split; [intros Heq; lia|].
      discriminate.
Qed.

(** What [handleResponse] does to the world: nothing, unless it returns
    a body read from a response other than 304, which it stores. *)
Lemma handleResponse_cases c key cached resp w :
  (snd (handleResponse c key cached resp w) = w
   /\ (StatusCode resp = 304%Z
       \/ forall body, fst (handleResponse c key cached resp w) <> Ok body))
  \/ (StatusCode resp <> 304%Z
      /\ exists body,
           handleResponse c key cached resp w
           = (Ok body, cacheStore c key body resp w)).
Proof.
  unfold handleResponse, StatusNotModified.
  destruct (Z.eqb_spec (StatusCode resp) 304) as [H304|H304].
  - left. destruct cached as [[data etag]|]; split; auto.
  - destruct ((StatusCode resp <? 200)%Z || (299 <? StatusCode resp)%Z).
    + left. destruct (ReadAllLimit _ _) as [[b e] rest].
      split; [reflexivity|]. right. discriminate.
    + destruct (ReadAllLimit _ _) as [[body [m|]] rest].
      * left. split; [reflexivity|]. right. discriminate.
      * destruct ((len body =? maxResponseSize)%N && (0 <? ReadOne rest)%Z).
        { left. split; [reflexivity|]. right. discriminate. }
        destruct (len body =? 0)%N.
        { left. split; [reflexivity|]. right. discriminate. }
        right. split; [exact H304|]. exists body. reflexivity.
Qed.

(** The request and the answer of an attempt are determined. *)
Lemma requested_unique c ctx q endpoint w url req url' req' :
  requested c ctx q endpoint w url req ->
  requested c ctx q endpoint w url' req' ->
  url' = url /\ req' = req.
Proof.
  intros (cx & _ & _ & Hurl & _ & ->) (cx' & _ & _ & Hurl' & _ & ->).
  rewrite Hurl in Hurl'. injection Hurl' as <-. split; reflexivity.
Qed.

(** C10, as amended: with a cache configured, an attempt reads the cache
    for the URL right before its request, whenever it makes one; and it
    writes the cache if and only if it succeeds with a body read from a
    response other than 304, in which case it writes that body under the
    URL with the trimmed [ETag] header, whether or not the response
    carries one. *)
Theorem fetchOnce_cache_lifecycle c ch ctx q endpoint w :
  cache c = Some ch ->
  let r := fst (fetchOnce c ctx q endpoint w) in
  let w' := snd (fetchOnce c ctx q endpoint w) in
  exists evs,
    trace w' = (trace w ++ evs)%list
    /\ (forall req, In (HttpDo req) evs ->
        exists rest, evs = CacheGet (req_URL req) :: HttpDo req :: rest)
    /\ (forall key data etag,
        In (CachePut key data etag) evs <->
        exists resp,
          answered c ctx q endpoint w key resp
          /\ StatusCode resp <> 304%Z
          /\ r = Ok data
          /\ etag = TrimSpace (Header_ETag resp)).
Proof.
  intros Hcache r w'. subst r w'.
  assert (Hnone : forall (evs : list Event) (r : result bytes),
    (forall e, In e evs -> exists k, e = CacheGet k) ->
    (forall key resp, ~ answered c ctx q endpoint w key resp) ->
    (forall req, In (HttpDo req) evs ->
       exists rest, evs = CacheGet (req_URL req) :: HttpDo req :: rest)
    /\ (forall key data etag,
        In (CachePut key data etag) evs <->
        exists resp,
          answered c ctx q endpoint w key resp
          /\ StatusCode resp <> 304%Z
          /\ r = Ok data
          /\ etag = TrimSpace (Header_ETag resp))).
  { intros evs r Hevs Hno. split.
    - intros req Hin. apply Hevs in Hin as [k Hk]. discriminate.
    - intros key data etag. split.
      + intros Hin. apply Hevs in Hin as [k Hk]. discriminate.
      + intros (resp & Hans & _). destruct (Hno _ _ Hans). }
  destruct ctx as [cx|].
  2:{ exists []. split; [symmetry; apply app_nil_r|]. apply Hnone.
      - intros e [].
      - intros key resp (req & (cx & Hcx & _) & _). discriminate. }
  destruct (Context_Err cx (clock w)) as [e|] eqn:Hlive.
  { exists []. unfold fetchOnce, observe. rewrite Hlive. cbn [snd trace].
    split; [symmetry; apply app_nil_r|]. apply Hnone.
    - intros ? [].
    - intros key resp (req & (cx' & Hcx & Hl & _) & _).
      injection Hcx as <-. congruence. }
  destruct (BuildURL q (baseURL c) endpoint) as [url|err] eqn:Hurl.
  2:{ exists []. unfold fetchOnce, observe. rewrite Hlive, Hurl. cbn [snd trace].
      split; [symmetry; apply app_nil_r|]. apply Hnone.
      - intros ? [].
      - intros key resp (req & (cx' & _ & _ & Hu & _) & _). congruence. }
  destruct (requestError url) as [m|] eqn:Hreq.
  { exists [CacheGet url]. unfold fetchOnce, observe.
    rewrite Hlive, Hurl, cacheLookup_spec, Hreq. unfold cacheReads.
    rewrite Hcache. cbn [snd trace]. split; [reflexivity|]. apply Hnone.
    - intros e [<-|[]]. eexists. reflexivity.
    - intros key resp (req & (cx' & _ & _ & Hu & Hr & _) & _).
      rewrite Hurl in Hu. injection Hu as <-. congruence. }
  set (req := newRequest c url (cachedEntry c url (store w))).
  assert (Hrq : requested c (Some cx) q endpoint w url req).
  { exists cx. repeat split; assumption. }
  destruct (fetchOnce_requested _ _ _ _ _ _ _ Hrq) as (cx' & _ & ->).
  assert (Hreads : cacheReads c url = [CacheGet url]).
  { unfold cacheReads. rewrite Hcache. reflexivity. }
  destruct (httpClient c (sent w) req) as [m|resp] eqn:Hdo.
  { exists [CacheGet url; HttpDo req]. cbn [snd trace]. rewrite Hreads.
    split; [reflexivity|]. split.
    - intros req' [Hx|[Hx|[]]]; [discriminate|]. injection Hx as <-.
      exists []. reflexivity.
    - intros key data etag. split.
      + intros [Hx|[Hx|[]]]; discriminate.
      + intros (resp & (req' & Hrq' & Hdo') & _).
        destruct (requested_unique _ _ _ _ _ _ _ _ _ Hrq Hrq') as [_ ->].
        congruence. }
  assert (Hresp : forall key resp',
    answered c (Some cx) q endpoint w key resp' -> key = url /\ resp' = resp).
  { intros key resp' (req' & Hrq' & Hdo').
    destruct (requested_unique _ _ _ _ _ _ _ _ _ Hrq Hrq') as [-> ->].
    split; [reflexivity|]. congruence. }
  assert (Hans : answered c (Some cx) q endpoint w url resp).
  { exists req. split; assumption. }
  destruct (handleResponse_cases c url (cachedEntry c url (store w)) resp
              (afterRequest c url req w)) as [[Hw Hr]|[H304 [body Hbody]]].
  - exists [CacheGet url; HttpDo req]. rewrite Hw. unfold afterRequest.
    cbn [trace]. rewrite Hreads. split; [reflexivity|]. split.
    + intros req' [Hx|[Hx|[]]]; [discriminate|]. injection Hx as <-.
      exists []. reflexivity.
    + intros key data etag. split.
      * intros [Hx|[Hx|[]]]; discriminate.
      * intros (resp' & Hans' & H304 & Hok & _).
        destruct (Hresp _ _ Hans') as [-> ->].
        destruct Hr as [Hr|Hr]; [contradiction|]. exfalso. apply (Hr data).
        rewrite <- Hok. unfold afterRequest. rewrite Hreads. reflexivity.
  - exists [CacheGet url; HttpDo req; CachePut url body (TrimSpace (Header_ETag resp))].
    rewrite Hbody. unfold cacheStore, afterRequest. rewrite Hcache, Hreads.
    cbn [fst snd trace]. rewrite <- app_assoc. split; [reflexivity|]. split.
    + intros req' [Hx|[Hx|[Hx|[]]]]; try discriminate. injection Hx as <-.
      eexists. reflexivity.
    + intros key data etag. split.
      * intros [Hx|[Hx|[Hx|[]]]]; try discriminate.
        injection Hx as <- <- <-. exists resp. repeat split; assumption.
      * intros (resp' & Hans' & _ & Hok & ->).
        destruct (Hresp _ _ Hans') as [-> ->]. injection Hok as <-.
        right. right. left. reflexivity.
Qed.

End AttemptProperties.

(** ** The retry loop *)

Lemma wrap64_small z : (- 2 ^ 63 <= z < 2 ^ 63)%Z -> wrap64 z = z.
Proof. intros Hz. unfold wrap64. rewrite Z.mod_small; lia. Qed.

Lemma attempts_app a b : attempts (a ++ b) = (attempts a + attempts b)%nat.
Proof. induction a as [|[] a IH]; cbn; lia. Qed.

Lemma requests_app a b : requests (a ++ b) = (requests a + requests b)%nat.
Proof. induction a as [|[] a IH]; cbn; lia. Qed.

Lemma sleeps_app a b : sleeps (a ++ b) = (sleeps a ++ sleeps b)%list.
Proof. induction a as [|[] a IH]; cbn; congruence. Qed.

Lemma total_app a b : total (a ++ b) = (total a + total b)%Z.
Proof. unfold total. induction a as [|x a IH]; cbn; lia. Qed.

(** The waits of the back-off add up to [d * (2^m - 1)]. *)
Lemma total_backoff d m : total (backoff d m) = (d * (2 ^ Z.of_nat m - 1))%Z.
Proof.
  unfold backoff. induction m as [|m IH]; [cbn; lia|].
  rewrite seq_S, map_app, total_app, IH. cbn [map total fold_right Nat.add].
  rewrite Nat2Z.inj_succ, Z.pow_succ_r by lia. lia.
Qed.

(** A multiple of a smaller power of two fits when the multiple of a
    larger one does. *)
Lemma doubled_in_range d i j :
  (0 <= i <= j)%Z ->
  (- 2 ^ 63 <= d * 2 ^ j < 2 ^ 63)%Z ->
  (- 2 ^ 63 <= d * 2 ^ i < 2 ^ 63)%Z.
Proof.
  intros Hij Hd.
  replace j with (i + (j - i))%Z in Hd by lia.
  rewrite Z.pow_add_r in Hd by lia.
  assert (0 < 2 ^ i)%Z by (apply Z.pow_pos_nonneg; lia).
  assert (0 < 2 ^ (j - i))%Z by (apply Z.pow_pos_nonneg; lia).
  nia.
Qed.

Section LoopProperties.
Context `{NetLib} {St : Type}.
Implicit Types (c : Client St) (w : World St).

(** A round in which the context is found done, at the start or in the
    wait, ends the call with the error of the context and does nothing
    else. *)
Lemma loopBody_context_done c cx q endpoint attempt delay w e :
  Context_Err cx (clock w) = Some e
  \/ ((0 < attempt)%Z
      /\ Context_Err cx (clock w) = None
      /\ Context_Err cx (S (clock w)) = Some e) ->
  exists text w',
    loopBody c (Some cx) q endpoint attempt delay w
    = (Exit (Returned (Err (Wrap text (ContextError e)))), w')
    /\ trace w' = trace w /\ sent w' = sent w /\ store w' = store w.
Proof.
  intros [Hdone|(Hpos & Hlive & Hdone)]; unfold loopBody, observe.
  - rewrite Hdone. eexists _, _. split; [reflexivity|]. cbn. auto.
  - rewrite Hlive. apply Z.ltb_lt in Hpos. rewrite Hpos.
    cbn [clock]. rewrite Hdone.
    eexists _, _. split; [reflexivity|]. cbn. auto.
Qed.

(** C6: in whatever round of the loop (as long as the retry budget lets
    the round start), when the context is done before the attempt starts
    or ends during the wait before the attempt, [fetch] returns at once
    with an error that wraps the error of the context: no attempt, no
    request and no completed wait follow. *)
Theorem fetch_context_done fuel c cx q endpoint attempt delay lastErr w e :
  (attempt <= maxRetries c)%Z ->
  Context_Err cx (clock w) = Some e
  \/ ((0 < attempt)%Z
      /\ Context_Err cx (clock w) = None
      /\ Context_Err cx (S (clock w)) = Some e) ->
  exists text w',
    fetchLoop (S fuel) c (Some cx) q endpoint attempt delay lastErr w
    = Some (Returned (Err (Wrap text (ContextError e))), w')
    /\ trace w' = trace w /\ sent w' = sent w /\ store w' = store w.
Proof.
  intros Hle Hdone.
  destruct (loopBody_context_done c cx q endpoint attempt delay w e Hdone)
    as (text & w' & Hbody & Hw).
  exists text, w'. split; [|exact Hw].
  cbn [fetchLoop]. apply Z.leb_le in Hle. rewrite Hle, Hbody. reflexivity.
Qed.

(** The loop of [fetch] is [fetchLoop] in each of the states it goes
    through. *)
Lemma fetch_rounds c ctx q endpoint w0 n attempt delay lastErr w :
  (maxRetries c < 2 ^ 63 - 1)%Z ->
  rounds c ctx q endpoint w0 n attempt delay lastErr w ->
  attempt = Z.of_nat n
  /\ fetch c ctx q endpoint w0
     = fetchLoop (S (Z.to_nat (maxRetries c + 1 - attempt))) c ctx q endpoint
                 attempt delay lastErr w.
Proof.
  intros Hmax Hr. induction Hr as [|n a d le w d' e w' Hr [IHa IH] Hle Hbody].
  - split; [reflexivity|]. unfold fetch. rewrite Z.sub_0_r. reflexivity.
  - assert (Hw : wrap64 (a + 1) = (a + 1)%Z) by (apply wrap64_small; lia).
    rewrite Hw. split; [lia|]. rewrite IH. cbn [fetchLoop].
    rewrite (proj2 (Z.leb_le _ _) Hle), Hbody.
    replace (Z.to_nat (maxRetries c + 1 - a))
      with (S (Z.to_nat (maxRetries c + 1 - (a + 1)))) by lia.
    rewrite Hw. reflexivity.
Qed.

(** The same for a call of [fetch]: whatever rounds went before. *)
Lemma fetch_cancelled c cx q endpoint w0 n attempt delay lastErr w e :
  (maxRetries c < 2 ^ 63 - 1)%Z ->
  rounds c (Some cx) q endpoint w0 n attempt delay lastErr w ->
  (attempt <= maxRetries c)%Z ->
  Context_Err cx (clock w) = Some e
  \/ ((0 < attempt)%Z
      /\ Context_Err cx (clock w) = None
      /\ Context_Err cx (S (clock w)) = Some e) ->
  exists text w',
    fetch c (Some cx) q endpoint w0
    = Some (Returned (Err (Wrap text (ContextError e))), w')
    /\ trace w' = trace w /\ sent w' = sent w /\ store w' = store w.
Proof.
  intros Hmax Hr Hle Hdone.
  destruct (fetch_rounds _ _ _ _ _ _ _ _ _ _ Hmax Hr) as [_ ->].
  destruct (loopBody_context_done c cx q endpoint attempt delay w e Hdone)
    as (text & w' & Hbody & Hw).
  exists text, w'. split; [|exact Hw].
  cbn [fetchLoop]. apply Z.leb_le in Hle. rewrite Hle, Hbody. reflexivity.
Qed.

(** A context that is done stays done. *)
Lemma Context_Err_mono cx n n' e :
  Context_Err cx n = Some e -> (n <= n')%nat -> Context_Err cx n' = Some e.
Proof.
  destruct cx as [|t cause]; cbn; [discriminate|].
  destruct (Nat.leb_spec t n); [|discriminate]. intros He Hle.
  destruct (Nat.leb_spec t n'); [exact He|lia].
Qed.

(** When the context ends after the wait, the attempt that follows stops
    at its first check, before any request, and the next test of the
    loop ends the call: still with the error of the context, wrapped. *)
Lemma fetch_context_done_in_attempt fuel c cx q endpoint attempt delay lastErr w e :
  (0 <= attempt <= maxRetries c)%Z ->
  (maxRetries c < 2 ^ 63 - 1)%Z ->
  Context_Err cx (clock w) = None ->
  ((0 < attempt)%Z -> Context_Err cx (S (clock w)) = None) ->
  Context_Err cx (if (0 <? attempt)%Z then S (S (clock w)) else S (clock w))
  = Some e ->
  exists err w',
    fetchLoop (S (S fuel)) c (Some cx) q endpoint attempt delay lastErr w
    = Some (Returned (Err err), w')
    /\ wrapsContextError e err
    /\ sent w' = sent w
    /\ requests (trace w') = requests (trace w).
Proof.
  intros Ha Hmax Hlive Hwait Hdone.
  cbn [fetchLoop]. rewrite (proj2 (Z.leb_le _ _)) by lia.
  unfold loopBody, observe. rewrite Hlive. cbn [clock sent store trace].
  rewrite (wrap64_small (attempt + 1)) by lia.
  destruct (Z.ltb_spec 0 attempt) as [Hpos|Hzero].
  - rewrite (Hwait Hpos). unfold record, fetchOnce, observe.
    cbn [clock sent store trace]. rewrite Hdone. cbn [negb shouldRetry IsQueryError].
    destruct (Z.leb_spec (attempt + 1) (maxRetries c)).
    + cbn [clock]. rewrite (Context_Err_mono _ _ _ _ Hdone) by lia.
      eexists _, _. split; [reflexivity|]. cbn [wrapsContextError sent trace].
      rewrite !requests_app. cbn. repeat split; lia.
    + eexists _, _. split; [reflexivity|]. cbn [retriesExceeded wrapsContextError sent trace].
      rewrite !requests_app. cbn. repeat split; lia.
  - unfold record, fetchOnce, observe.
    cbn [clock sent store trace]. rewrite Hdone. cbn [negb shouldRetry IsQueryError].
    destruct (Z.leb_spec (attempt + 1) (maxRetries c)).
    + cbn [clock]. rewrite (Context_Err_mono _ _ _ _ Hdone) by lia.
      eexists _, _. split; [reflexivity|]. cbn [wrapsContextError sent trace].
      rewrite !requests_app. cbn. repeat split; lia.
    + eexists _, _. split; [reflexivity|]. cbn [retriesExceeded wrapsContextError sent trace].
      rewrite !requests_app. cbn. repeat split; lia.
Qed.

End LoopProperties.

(** ** Rounds whose attempt gets a transient answer *)

(** What becomes of a response with an error status. *)
Lemma handleResponse_error_status `{NetLib} {St} (c : Client St) key cached
  resp (w : World St) :
  StatusCode resp <> 304%Z ->
  (StatusCode resp < 200 \/ 299 < StatusCode resp)%Z ->
  handleResponse c key cached resp w
  = (Err (ErrorResponse (Some resp) (statusMessage resp)), w).
Proof.
  intros H304 Hcode. unfold handleResponse, StatusNotModified.
  rewrite (proj2 (Z.eqb_neq _ _) H304).
  replace ((StatusCode resp <? 200)%Z || (299 <? StatusCode resp)%Z) with true
    by (symmetry; apply orb_true_iff; rewrite Z.ltb_lt, Z.ltb_lt; exact Hcode).
  rewrite ReadAllLimit_spec. unfold statusMessage. reflexivity.
Qed.

(** The events of the rounds, counted. *)
Lemma roundEvents_counts {St} (c : Client St) url d (s : St) i :
  attempts (roundEvents c url d s i) = 1%nat
  /\ requests (roundEvents c url d s i) = 1%nat
  /\ sleeps (roundEvents c url d s i)
     = match i with
       | O => []
       | S j => [(d * 2 ^ Z.of_nat j)%Z]
       end.
Proof.
  unfold roundEvents, cacheReads.
  destruct i; destruct (cache c); cbn; auto.
Qed.

Lemma roundsEvents_S {St} (c : Client St) url d (s : St) n :
  roundsEvents c url d s (S n)
  = (roundsEvents c url d s n ++ roundEvents c url d s n)%list.
Proof.
  unfold roundsEvents. rewrite seq_S, map_app, concat_app.
  cbn [Nat.add map concat]. rewrite app_nil_r. reflexivity.
Qed.

Lemma roundsEvents_counts {St} (c : Client St) url d (s : St) n :
  attempts (roundsEvents c url d s n) = n
  /\ requests (roundsEvents c url d s n) = n
  /\ sleeps (roundsEvents c url d s n) = backoff d (pred n).
Proof.
  induction n as [|n (Ha & Hr & Hz)]; [cbn; auto|].
  destruct (roundEvents_counts c url d s n) as (Ha1 & Hr1 & Hz1).
  rewrite roundsEvents_S, attempts_app, requests_app, sleeps_app,
    Ha, Hr, Hz, Ha1, Hr1, Hz1.
  split; [lia|]. split; [lia|].
  destruct n as [|j]; [reflexivity|].
  cbn [pred]. unfold backoff. rewrite (seq_S j), map_app. reflexivity.
Qed.

Section Transient.
Context `{NetLib} {St : Type}.
Variables (c : Client St) (cx : Context) (q : Query) (endpoint url : string).
Hypothesis live : forall n, Context_Err cx n = None.
Hypothesis built : BuildURL q (baseURL c) endpoint = Ok url.
Hypothesis accepted : requestError url = None.

(** A round of the loop under a live context. *)
Lemma loopBody_live attempt delay w :
  loopBody c (Some cx) q endpoint attempt delay w
  = let (r, w1) :=
      fetchOnce c (Some cx) q endpoint (attemptWorld attempt delay w) in
    match r with
    | Ok data => (Exit (Returned (Ok data)), w1)
    | Err err =>
        if negb (shouldRetry (Some err)) then (Exit (Returned (Err err)), w1)
        else (Continue (if (0 <? attempt)%Z then wrap64 (delay * 2) else delay)
                       err, w1)
    end.
Proof.
  unfold loopBody, observe, attemptWorld, record. rewrite live.
  destruct (0 <? attempt)%Z.
  - cbn [clock sent store trace]. rewrite live. cbn [clock sent store trace].
    rewrite <- app_assoc. reflexivity.
  - cbn [clock sent store trace app]. reflexivity.
Qed.

Lemma requested_here w :
  requested c (Some cx) q endpoint w url
            (newRequest c url (cachedEntry c url (store w))).
Proof. exists cx. repeat split; auto. Qed.

(** An attempt that gets a transient answer: its error, and what it
    did. *)
Lemma attempt_transient w rt :
  (forall req, httpClient c (sent w) req = rt) ->
  transient rt = true ->
  exists w',
    fetchOnce c (Some cx) q endpoint w = (Err (transientError rt), w')
    /\ shouldRetry (Some (transientError rt)) = true
    /\ sent w' = S (sent w)
    /\ store w' = storeAfterGet c url (store w)
    /\ trace w'
       = (trace w ++ cacheReads c url
            ++ [HttpDo (newRequest c url (cachedEntry c url (store w)))])%list.
Proof.
  intros Hdo Htr.
  destruct (fetchOnce_requested _ _ _ _ _ _ _ (requested_here w))
    as (cx' & Hcx & ->).
  injection Hcx as <-. rewrite Hdo.
  destruct rt as [m|resp]; cbn [transient transientError] in *.
  - rewrite live. eexists. split; [reflexivity|]. cbn [sent store trace].
    repeat split; reflexivity.
  - apply Z.leb_le in Htr.
    rewrite handleResponse_error_status by lia.
    eexists. split; [reflexivity|]. unfold afterRequest.
    cbn [sent store trace]. split.
    { unfold shouldRetry, IsQueryError, IsServerError. apply Z.leb_le. lia. }
    repeat split; reflexivity.
Qed.

(** A round whose attempt gets a transient answer: the loop goes on. *)
Lemma round_transient attempt delay w rt :
  (forall req, httpClient c (sent w) req = rt) ->
  transient rt = true ->
  exists w',
    loopBody c (Some cx) q endpoint attempt delay w
    = (Continue (if (0 <? attempt)%Z then wrap64 (delay * 2) else delay)
                (transientError rt), w')
    /\ sent w' = S (sent w)
    /\ store w' = storeAfterGet c url (store w)
    /\ trace w'
       = (trace w ++ (if (0 <? attempt)%Z then [Sleep delay] else [])
            ++ [Attempt attempt] ++ cacheReads c url
            ++ [HttpDo (newRequest c url (cachedEntry c url (store w)))])%list.
Proof.
  intros Hdo Htr. rewrite loopBody_live.
  destruct (attempt_transient (attemptWorld attempt delay w) rt Hdo Htr)
    as (w' & -> & Hretry & Hs & Hst & Ht).
  rewrite Hretry. cbn [negb].
  exists w'. split; [reflexivity|]. split; [exact Hs|]. split; [exact Hst|].
  rewrite Ht. unfold attemptWorld. cbn [trace store].
  rewrite <- !app_assoc. reflexivity.
Qed.

(** A round whose attempt ends the call: with data, or with an error
    that is not retried. *)
Lemma round_final attempt delay w r w1 :
  fetchOnce c (Some cx) q endpoint (attemptWorld attempt delay w) = (r, w1) ->
  (forall e, r = Err e -> shouldRetry (Some e) = false) ->
  loopBody c (Some cx) q endpoint attempt delay w = (Exit (Returned r), w1).
Proof.
  intros Hrun Hfinal. rewrite loopBody_live, Hrun.
  destruct r as [data|e]; [reflexivity|].
  rewrite (Hfinal e eq_refl). reflexivity.
Qed.

(** [k] rounds in a row from round [a] on, none of them the first, whose
    attempts get transient answers: the loop is [k] rounds further, and
    what it did is the events of these rounds, each with its wait in
    front. *)
Lemma rounds_transient (script : nat -> RoundTrip) (s0 : St) (k : nat) :
  forall fuel (a : nat) delay lastErr w,
  (1 <= a)%nat ->
  (Z.of_nat a + Z.of_nat k <= maxRetries c + 1)%Z ->
  (maxRetries c < 2 ^ 63 - 1)%Z ->
  (forall i req, (i < k)%nat ->
     httpClient c (sent w + i)%nat req = script (sent w + i)%nat) ->
  (forall i, (i < k)%nat -> transient (script (sent w + i)%nat) = true) ->
  ((0 < k)%nat -> delay = (retryDelay c * 2 ^ (Z.of_nat a - 1))%Z) ->
  ((1 < k)%nat ->
   (- 2 ^ 63 <= retryDelay c * 2 ^ (Z.of_nat a + Z.of_nat k - 2) < 2 ^ 63)%Z) ->
  store w = storeAfterGets c url a s0 ->
  exists w',
    fetchLoop (k + fuel) c (Some cx) q endpoint (Z.of_nat a) delay lastErr w
    = fetchLoop fuel c (Some cx) q endpoint (Z.of_nat (a + k))
        (match k with
         | O => delay
         | S _ => wrap64 (retryDelay c * 2 ^ (Z.of_nat (a + k) - 1))
         end)
        (match k with
         | O => lastErr
         | S k' => Some (transientError (script (sent w + k')%nat))
         end) w'
    /\ sent w' = (sent w + k)%nat
    /\ store w' = storeAfterGets c url (a + k) s0
    /\ trace w'
       = (trace w
            ++ concat (map (roundEvents c url (retryDelay c) s0) (seq a k)))%list.
Proof.
  induction k as [|k IH];
    intros fuel a delay lastErr w Ha Hk Hmax Hdo Htr Hdelay Hrange Hstore.
  - exists w. cbn [Nat.add seq map concat].
    rewrite app_nil_r, !Nat.add_0_r. repeat split; auto.
  - cbn [Nat.add fetchLoop]. rewrite (proj2 (Z.leb_le _ _)) by lia.
    destruct (round_transient (Z.of_nat a) delay w (script (sent w)))
      as (w1 & -> & Hs1 & Hst1 & Ht1).
    { intros req. pose proof (Hdo 0%nat req ltac:(lia)) as Hx.
      rewrite Nat.add_0_r in Hx. exact Hx. }
    { pose proof (Htr 0%nat ltac:(lia)) as Hx.
      rewrite Nat.add_0_r in Hx. exact Hx. }
    rewrite (proj2 (Z.ltb_lt 0 (Z.of_nat a))) in * by lia.
    rewrite (wrap64_small (Z.of_nat a + 1)) by lia.
    replace (Z.of_nat a + 1)%Z with (Z.of_nat (S a)) by lia.
    assert (Hdelay0 : delay = (retryDelay c * 2 ^ (Z.of_nat a - 1))%Z)
      by (apply Hdelay; lia).
    assert (Hdouble : (delay * 2 = retryDelay c * 2 ^ Z.of_nat a)%Z).
    { rewrite Hdelay0.
      replace (Z.of_nat a) with (Z.succ (Z.of_nat a - 1)) at 2 by lia.
      rewrite Z.pow_succ_r by lia. lia. }
    destruct (IH fuel (S a) (wrap64 (delay * 2))
                (Some (transientError (script (sent w)))) w1)
      as (w' & -> & Hs & Hst & Ht); try lia.
    { intros i req Hi. rewrite Hs1.
      replace (S (sent w) + i)%nat with (sent w + S i)%nat by lia.
      apply Hdo. lia. }
    { intros i Hi. rewrite Hs1.
      replace (S (sent w) + i)%nat with (sent w + S i)%nat by lia.
      apply Htr. lia. }
    { intros Hpos. rewrite Hdouble.
      replace (Z.of_nat (S a) - 1)%Z with (Z.of_nat a) by lia.
      apply wrap64_small.
      apply (doubled_in_range _ (Z.of_nat a)
               (Z.of_nat a + Z.of_nat (S k) - 2));
        [lia|apply Hrange; lia]. }
    { intros Hpos.
      replace (Z.of_nat (S a) + Z.of_nat k - 2)%Z
        with (Z.of_nat a + Z.of_nat (S k) - 2)%Z by lia.
      apply Hrange. lia. }
    { rewrite Hst1, Hstore. reflexivity. }
    exists w'. split.
    { replace (S a + k)%nat with (a + S k)%nat by lia.
      destruct k as [|k'].
      - rewrite Hdouble.
        replace (Z.of_nat (a + 1) - 1)%Z with (Z.of_nat a) by lia.
        replace (sent w + 0)%nat with (sent w) by lia. reflexivity.
      - rewrite Hs1.
        replace (S (sent w) + k')%nat with (sent w + S k')%nat by lia.
        reflexivity. }
    split; [lia|].
    split; [rewrite Hst; f_equal; lia|].
    rewrite Ht, Ht1, <- !app_assoc. f_equal.
    cbn [seq map concat].
    generalize (concat (map (roundEvents c url (retryDelay c) s0)
                          (seq (S a) k))).
    intros rest. destruct a as [|j]; [lia|].
    rewrite Hdelay0, Hstore.
    replace (Z.of_nat (S j) - 1)%Z with (Z.of_nat j) by lia.
    unfold roundEvents. rewrite <- ?app_assoc. reflexivity.
Qed.

(** A call of [fetch] whose first [K] attempts get transient answers:
    where the loop is after them, and what it did. *)
Lemma fetch_after_transients (script : nat -> RoundTrip) (K : nat) w :
  (Z.of_nat K <= maxRetries c + 1)%Z ->
  (maxRetries c < 2 ^ 63 - 1)%Z ->
  (forall i req, (i < K)%nat ->
     httpClient c (sent w + i)%nat req = script (sent w + i)%nat) ->
  (forall i, (i < K)%nat -> transient (script (sent w + i)%nat) = true) ->
  ((2 <= K)%nat ->
   (- 2 ^ 63 <= retryDelay c * 2 ^ (Z.of_nat K - 2) < 2 ^ 63)%Z) ->
  exists wK,
    fetch c (Some cx) q endpoint w
    = fetchLoop (S (Z.to_nat (maxRetries c + 1 - Z.of_nat K))) c (Some cx) q
        endpoint (Z.of_nat K)
        (match K with
         | O | S O => retryDelay c
         | _ => wrap64 (retryDelay c * 2 ^ (Z.of_nat K - 1))
         end)
        (match K with
         | O => None
         | S K' => Some (transientError (script (sent w + K')%nat))
         end) wK
    /\ sent wK = (sent w + K)%nat
    /\ store wK = storeAfterGets c url K (store w)
    /\ trace wK
       = (trace w ++ roundsEvents c url (retryDelay c) (store w) K)%list.
Proof.
  intros HK Hmax Hdo Htr Hrange. destruct K as [|k].
  - exists w. unfold roundsEvents. cbn [seq map concat].
    rewrite app_nil_r, Nat.add_0_r. unfold fetch.
    cbn [Z.of_nat]. rewrite Z.sub_0_r. repeat split; reflexivity.
  - unfold fetch. cbn [fetchLoop].
    rewrite (proj2 (Z.leb_le 0 (maxRetries c))) by lia.
    destruct (round_transient 0 (retryDelay c) w (script (sent w)))
      as (w1 & -> & Hs1 & Hst1 & Ht1).
    { intros req. pose proof (Hdo 0%nat req ltac:(lia)) as Hx.
      rewrite Nat.add_0_r in Hx. exact Hx. }
    { pose proof (Htr 0%nat ltac:(lia)) as Hx.
      rewrite Nat.add_0_r in Hx. exact Hx. }
    cbn [Z.ltb Z.compare] in Ht1 |- *.
    rewrite (wrap64_small (0 + 1)) by lia.
    replace (Z.to_nat (maxRetries c + 1))
      with (k + S (Z.to_nat (maxRetries c + 1 - Z.of_nat (S k))))%nat by lia.
    change (0 + 1)%Z with (Z.of_nat 1).
    destruct (rounds_transient script (store w) k
                (S (Z.to_nat (maxRetries c + 1 - Z.of_nat (S k)))) 1%nat
                (retryDelay c)
                (Some (transientError (script (sent w)))) w1)
      as (w' & -> & Hs & Hst & Ht); try lia.
    { intros i req Hi. rewrite Hs1.
      replace (S (sent w) + i)%nat with (sent w + S i)%nat by lia.
      apply Hdo. lia. }
    { intros i Hi. rewrite Hs1.
      replace (S (sent w) + i)%nat with (sent w + S i)%nat by lia.
      apply Htr. lia. }
    { intros Hk.
      replace (Z.of_nat 1 + Z.of_nat k - 2)%Z with (Z.of_nat (S k) - 2)%Z by lia.
      apply Hrange. lia. }
    { exact Hst1. }
    exists w'. split.
    { change (1 + k)%nat with (S k).
      destruct k as [|k'].
      - replace (sent w + 0)%nat with (sent w) by lia. reflexivity.
      - rewrite Hs1.
        replace (S (sent w) + k')%nat with (sent w + S k')%nat by lia.
        reflexivity. }
    split; [lia|]. split; [exact Hst|].
    rewrite Ht, Ht1, <- !app_assoc. f_equal.
    unfold roundsEvents. cbn [seq map concat].
    generalize (concat (map (roundEvents c url (retryDelay c) (store w))
                          (seq 1 k))).
    intros rest. unfold roundEvents.
    cbn [app storeAfterGets Nat.iter Z.of_nat]. rewrite <- ?app_assoc.
    reflexivity.
Qed.

(** The same call when the attempt after them ends it with [r], having
    made its request and then done [tail]. *)
Lemma fetch_ends_after_transients (script : nat -> RoundTrip) (K : nat) w r
  (tail : list Event) :
  (Z.of_nat K <= maxRetries c)%Z ->
  (maxRetries c < 2 ^ 63 - 1)%Z ->
  (forall i req, (i < K)%nat ->
     httpClient c (sent w + i)%nat req = script (sent w + i)%nat) ->
  (forall i, (i < K)%nat -> transient (script (sent w + i)%nat) = true) ->
  (- 2 ^ 63 <= retryDelay c * 2 ^ (Z.of_nat K - 1) < 2 ^ 63)%Z ->
  (forall w0, sent w0 = (sent w + K)%nat ->
     exists w1,
       fetchOnce c (Some cx) q endpoint w0 = (r, w1)
       /\ trace w1
          = (trace w0 ++ cacheReads c url
               ++ [HttpDo (newRequest c url (cachedEntry c url (store w0)))]
               ++ tail)%list) ->
  (forall e, r = Err e -> shouldRetry (Some e) = false) ->
  exists w',
    fetch c (Some cx) q endpoint w = Some (Returned r, w')
    /\ trace w'
       = (trace w ++ roundsEvents c url (retryDelay c) (store w) (S K)
            ++ tail)%list.
Proof.
  intros HK Hmax Hdo Htr Hrange Hlast Hfinal.
  destruct (fetch_after_transients script K w) as
    (wK & -> & HsK & HstK & HtK); try assumption; try lia.
  { intros HK2.
    apply (doubled_in_range _ _ (Z.of_nat K - 1)); [lia|exact Hrange]. }
  cbn [fetchLoop]. rewrite (proj2 (Z.leb_le _ _)) by lia.
  set (dK := match K with
             | O | S O => retryDelay c
             | _ => wrap64 (retryDelay c * 2 ^ (Z.of_nat K - 1))
             end).
  destruct (Hlast (attemptWorld (Z.of_nat K) dK wK) HsK) as (w1 & Hrun & Ht1).
  rewrite (round_final _ _ _ _ _ Hrun Hfinal).
  exists w1. split; [reflexivity|].
  rewrite Ht1. unfold attemptWorld. cbn [trace store].
  rewrite HtK, HstK, roundsEvents_S, <- !app_assoc. f_equal. f_equal.
  unfold roundEvents. rewrite <- !app_assoc.
  destruct K as [|[|k]].
  - reflexivity.
  - cbn [Z.ltb Z.compare Z.of_nat]. subst dK. cbn [Z.of_nat Z.pow].
    rewrite Z.mul_1_r. reflexivity.
  - replace (0 <? Z.of_nat (S (S k)))%Z with true
      by (symmetry; apply Z.ltb_lt; lia).
    subst dK. rewrite wrap64_small by exact Hrange.
    replace (Z.of_nat (S (S k)) - 1)%Z with (Z.of_nat (S k)) by lia.
    reflexivity.
Qed.

End Transient.

(** ** Transport failures and the back-off *)

Section Backoff.
Context `{NetLib} {St : Type}.
Implicit Types (c : Client St) (w : World St).

(** The transport refuses every request, the [n]-th one with the error
    [msg n], under a context that stays live, for a query whose URL can
    be requested. *)
Variables (c : Client St) (cx : Context) (q : Query) (endpoint url : string)
  (msg : nat -> string).
Hypothesis live : forall n, Context_Err cx n = None.
Hypothesis built : BuildURL q (baseURL c) endpoint = Ok url.
Hypothesis accepted : requestError url = None.
Hypothesis refused : forall n req, httpClient c n req = DoError (msg n).

(** C5, as amended: with [maxRetries = m] from 0 to below the largest
    [int] and [retryDelay = d] such that [d * 2^(m-1)] is a 64-bit
    duration, when the transport refuses every request (and the context
    stays live), [fetch] makes exactly [m + 1] attempts, each with one
    request, waits [d], [2d], ..., [2^(m-1) d] before the attempts 2 to
    [m + 1], [d * (2^m - 1)] in all, and returns the error "max retries
    (m) exceeded" that wraps the error of the last attempt.  What the call
    does is, in this order, the rounds 1 to [m + 1]: in each round first
    the wait, unless the round is the first, then the attempt with its
    request; nothing comes after the last request. *)
Theorem fetch_transport_failures w :
  (0 <= maxRetries c < 2 ^ 63 - 1)%Z ->
  (- 2 ^ 63 <= retryDelay c * 2 ^ (maxRetries c - 1) < 2 ^ 63)%Z ->
  exists w' evs,
    fetch c (Some cx) q endpoint w
    = Some (Returned (Err
        (Wrap ("max retries (" +:+ itoa (maxRetries c) +:+ ") exceeded")
           (Wrap "request failed"
              (LibError (msg (sent w + Z.to_nat (maxRetries c))%nat))))), w')
    /\ trace w' = (trace w ++ evs)%list
    /\ evs = roundsEvents c url (retryDelay c) (store w)
               (Z.to_nat (maxRetries c + 1))
    /\ attempts evs = Z.to_nat (maxRetries c + 1)
    /\ requests evs = Z.to_nat (maxRetries c + 1)
    /\ sleeps evs = backoff (retryDelay c) (Z.to_nat (maxRetries c))
    /\ total (sleeps evs) = (retryDelay c * (2 ^ maxRetries c - 1))%Z.
Proof.
  intros Hm Hd.
  destruct (fetch_after_transients c cx q endpoint url live built accepted
              (fun n => DoError (msg n)) (S (Z.to_nat (maxRetries c))) w)
    as (wK & Hrun & _ & _ & Ht); try lia.
  { intros i req _. apply refused. }
  { intros i _. reflexivity. }
  { intros _.
    replace (Z.of_nat (S (Z.to_nat (maxRetries c))) - 2)%Z
      with (maxRetries c - 1)%Z by lia.
    exact Hd. }
  replace (S (Z.to_nat (maxRetries c))) with (Z.to_nat (maxRetries c + 1))
    in Ht by lia.
  destruct (roundsEvents_counts c url (retryDelay c) (store w)
              (Z.to_nat (maxRetries c + 1))) as (Ha & Hr & Hz).
  exists wK, (roundsEvents c url (retryDelay c) (store w)
                (Z.to_nat (maxRetries c + 1))).
  split.
  { rewrite Hrun. cbn [fetchLoop].
    rewrite (proj2 (Z.leb_gt _ _)) by lia. reflexivity. }
  split; [exact Ht|]. split; [reflexivity|].
  split; [exact Ha|]. split; [exact Hr|].
  rewrite Hz. replace (pred (Z.to_nat (maxRetries c + 1)))
    with (Z.to_nat (maxRetries c)) by lia.
  split; [reflexivity|].
  rewrite total_backoff, Z2Nat.id by lia. reflexivity.
Qed.

End Backoff.

(** ** The properties at work *)

Lemma iss_answered {St} (resp : Response) (c : Client St) (w : World St) :
  baseURL c = Some defaultBaseURL ->
  (forall n req, httpClient c n req = DoResponse resp) ->
  answered (H := plainNet) c (Some Background) iss "gp.php" w issURL resp.
Proof.
  intros Hbase Hdo. eexists. split; [|apply Hdo].
  exists Background. rewrite Hbase.
  repeat split; vm_compute; reflexivity.
Qed.

Lemma fetchOnce_error_status_witness :
  fst (fetchOnce (H := plainNet) (NewClient (St := unit) (always notFound))
         (Some Background) iss "gp.php" (start tt))
  = Err (ErrorResponse (Some notFound) "No GP data found")
  /\ (shouldRetry (Some (ErrorResponse (Some notFound) "No GP data found")) = true
      <-> (500 <= 404)%Z).
Proof.
  assert (Hans : answered (H := plainNet) (NewClient (St := unit) (always notFound))
                   (Some Background) iss "gp.php" (start tt) issURL notFound)
    by (apply iss_answered; reflexivity).
  assert (H304 : StatusCode notFound <> 304%Z) by discriminate.
  assert (Hcode : (StatusCode notFound < 200 \/ 299 < StatusCode notFound)%Z)
    by (right; reflexivity).
  exact (fetchOnce_error_status _ _ _ _ _ _ _ Hans H304 Hcode).
Defined.

Lemma fetchOnce_not_modified_witness :
  fst (fetchOnce (H := plainNet) (caching notModified) (Some Background)
         iss "gp.php" (start warm))
  = Ok (bytes_of_string "[1]")
  /\ (exists req,
        trace (snd (fetchOnce (H := plainNet) (caching notModified)
                      (Some Background) iss "gp.php" (start warm)))
        = [CacheGet issURL; HttpDo req])
  /\ store (snd (fetchOnce (H := plainNet) (caching notModified)
                   (Some Background) iss "gp.php" (start warm)))
     = warm.
Proof.
  assert (Hans : answered (H := plainNet) (caching notModified)
                   (Some Background) iss "gp.php" (start warm) issURL notModified)
    by (apply iss_answered; reflexivity).
  assert (H304 : StatusCode notModified = 304%Z) by reflexivity.
  exact (fetchOnce_not_modified _ _ _ _ _ _ _ Hans H304).
Defined.

Lemma len_repeat {A} (x : A) (n : N) : len (repeat x (N.to_nat n)) = n.
Proof. unfold len. rewrite repeat_length. apply N2Nat.id. Qed.

Lemma fetchOnce_size_cap_witness :
  len (content (RespBody atCap)) = maxResponseSize
  /\ fst (fetchOnce (H := plainNet) (NewClient (St := unit) (always atCap))
            (Some Background) iss "gp.php" (start tt))
     = Ok (content (RespBody atCap)).
Proof.
  assert (Hans : answered (H := plainNet) (NewClient (St := unit) (always atCap))
                   (Some Background) iss "gp.php" (start tt) issURL atCap)
    by (apply iss_answered; reflexivity).
  assert (Hcode : (200 <= StatusCode atCap <= 299)%Z) by (split; discriminate).
  assert (Hlen : len (content (RespBody atCap)) = maxResponseSize)
    by apply len_repeat.
  split; [exact Hlen|].
  exact (proj1 (proj2 (fetchOnce_size_cap _ _ _ _ _ _ _ Hans Hcode))
           Hlen eq_refl).
Defined.

Lemma fetchOnce_cache_lifecycle_witness :
  exists evs,
    trace (snd (fetchOnce (H := plainNet) (caching notFound) (Some Background)
                  iss "gp.php" (start warm)))
    = (trace (start warm) ++ evs)%list
    /\ (forall req, In (HttpDo req) evs ->
        exists rest, evs = CacheGet (req_URL req) :: HttpDo req :: rest)
    /\ (forall key data etag,
        In (CachePut key data etag) evs <->
        exists resp,
          answered (H := plainNet) (caching notFound) (Some Background) iss
            "gp.php" (start warm) key resp
          /\ StatusCode resp <> 304%Z
          /\ fst (fetchOnce (H := plainNet) (caching notFound) (Some Background)
                    iss "gp.php" (start warm)) = Ok data
          /\ etag = TrimSpace (Header_ETag resp)).
Proof.
  exact (fetchOnce_cache_lifecycle (H := plainNet) (caching notFound) mapCache
           (Some Background) iss "gp.php" (start warm) eq_refl).
Defined.

(** C10, as stated, fails: a success that carries no [ETag] is written
    to the cache, with the empty string as its validator. *)
Lemma cache_written_without_validator :
  Header_ETag plainOK = ""
  /\ fst (fetchOnce (H := plainNet) (caching plainOK) (Some Background) iss
            "gp.php" (start ∅))
     = Ok (bytes_of_string "[]")
  /\ cacheWrites (trace (snd (fetchOnce (H := plainNet) (caching plainOK)
                                (Some Background) iss "gp.php" (start ∅))))
     = [(issURL, bytes_of_string "[]", "")]
  /\ store (snd (fetchOnce (H := plainNet) (caching plainOK)
                   (Some Background) iss "gp.php" (start ∅))) !! issURL
     = Some (bytes_of_string "[]", "")
  /\ cacheWrites (trace (snd (fetchOnce (H := plainNet) (caching plainOK)
                                (Some Background) iss "gp.php" (start ∅))))
     <> [].
Proof.
  split; [reflexivity|]. split; [vm_compute; reflexivity|].
  split; [vm_compute; reflexivity|]. split; [vm_compute; reflexivity|].
  vm_compute. discriminate.
Qed.

Lemma fetch_transport_failures_witness :
  exists w' evs,
    fetch (H := plainNet) offline (Some Background) iss "gp.php" (start tt)
    = Some (Returned (Err
        (Wrap "max retries (3) exceeded"
           (Wrap "request failed" (LibError "dial tcp: connection refused")))),
        w')
    /\ trace w' = (trace (start tt) ++ evs)%list
    /\ evs
       = [ Attempt 0;
           HttpDo (mkRequest issURL [("User-Agent", "celestrak-go/0.0.1")]);
           Sleep Second; Attempt 1;
           HttpDo (mkRequest issURL [("User-Agent", "celestrak-go/0.0.1")]);
           Sleep (2 * Second); Attempt 2;
           HttpDo (mkRequest issURL [("User-Agent", "celestrak-go/0.0.1")]);
           Sleep (4 * Second); Attempt 3;
           HttpDo (mkRequest issURL [("User-Agent", "celestrak-go/0.0.1")]) ]
    /\ attempts evs = 4%nat
    /\ requests evs = 4%nat
    /\ sleeps evs = [Second; 2 * Second; 4 * Second]%Z
    /\ total (sleeps evs) = (7 * Second)%Z.
Proof.
  assert (Hm : (0 <= maxRetries offline < 2 ^ 63 - 1)%Z) by (vm_compute; split; congruence).
  assert (Hd : (- 2 ^ 63 <= retryDelay offline * 2 ^ (maxRetries offline - 1) < 2 ^ 63)%Z)
    by (vm_compute; split; congruence).
  exact (fetch_transport_failures (H := plainNet) offline Background iss "gp.php"
           issURL refusal (fun _ => eq_refl) eq_refl eq_refl
           (fun _ _ => eq_refl) (start tt) Hm Hd).
Defined.

(** C5, as stated, fails: with a retry delay of 2^62 nanoseconds the
    second wait is not twice the first, because the doubled delay is no
    64-bit duration. *)
Lemma fetch_backoff_overflows :
  exists o w',
    fetch (H := plainNet) (WithRetries offline 2 longDelay) (Some Background)
      iss "gp.php" (start tt) = Some (o, w')
    /\ attempts (trace w') = 3%nat
    /\ sleeps (trace w') = [2 ^ 62; - 2 ^ 63]%Z
    /\ sleeps (trace w') <> backoff longDelay 2
    /\ total (sleeps (trace w')) <> (longDelay * (2 ^ 2 - 1))%Z.
Proof.
  eexists _, _. split; [vm_compute; reflexivity|].
  split; [reflexivity|]. split; [reflexivity|].
  split; vm_compute; discriminate.
Qed.

Lemma fetch_context_done_witness :
  exists text w',
    fetchLoop (H := plainNet) 4 offline (Some (DoneFrom 1 Canceled)) iss
      "gp.php" 1 Second None (start tt)
    = Some (Returned (Err (Wrap text (ContextError Canceled))), w')
    /\ trace w' = trace (start tt)
    /\ sent w' = sent (start tt)
    /\ store w' = store (start tt).
Proof.
  assert (Hle : (1 <= maxRetries offline)%Z) by (vm_compute; congruence).
  exact (fetch_context_done (H := plainNet) 3 offline (DoneFrom 1 Canceled) iss
           "gp.php" 1 Second None (start tt) Canceled Hle
           (or_intror (conj eq_refl (conj eq_refl eq_refl)))).
Defined.

(** A call that is cancelled during the wait before its second attempt. *)
Example fetch_cancelled_in_wait :
  exists w',
    fetch (H := plainNet) offline (Some (DoneFrom 4 Canceled)) iss "gp.php"
      (start tt)
    = Some (Returned (Err (Wrap "context cancelled during retry"
                             (ContextError Canceled))), w')
    /\ attempts (trace w') = 1%nat /\ requests (trace w') = 1%nat
    /\ sleeps (trace w') = [].
Proof. eexists. split; [vm_compute; reflexivity|]. cbn. auto. Qed.

(** C1, in the code: the error of the query builder comes back from
    [fetchOnce] wrapped, [shouldRetry] does not see a [QueryError] in it,
    and [fetch] goes through all its attempts and waits. *)
Theorem fetch_retries_builder_error `{NetLib} (transport : nat -> Request -> RoundTrip) :
  fetch (NewClient (St := unit) transport) (Some Background) emptyQuery
    "gp.php" (start tt)
  = Some (Returned (Err
      (Wrap "max retries (3) exceeded"
         (Wrap "build URL" (QueryError missingSelector)))),
      mkWorld 11 0 tt
        [Attempt 0; Sleep Second; Attempt 1; Sleep (2 * Second); Attempt 2;
         Sleep (4 * Second); Attempt 3]).
Proof. vm_compute. reflexivity. Qed.

Example retries_exceeded_message :
  Error (Wrap "max retries (3) exceeded"
           (Wrap "build URL" (QueryError missingSelector)))
  = "max retries (3) exceeded: build URL: celestrak: query error: missing selector (set one of CATNR/INTDES/GROUP/NAME/SPECIAL)".
Proof. reflexivity. Qed.

(** The classification behind it. *)
Lemma shouldRetry_wrapped text err : shouldRetry (Some (Wrap text err)) = true.
Proof. reflexivity. Qed.

(** C2, in the code: [fetch] calls [ctx.Err()] before [fetchOnce] can
    check the context, so a nil context is a nil dereference. *)
Theorem fetch_nil_context_panics `{NetLib} {St}
  (transport : nat -> Request -> RoundTrip) (q : Query) (endpoint : string)
  (w : World St) :
  fetch (NewClient transport) None q endpoint w
  = Some (Panicked nilDereference, w)
  /\ fst (fetchOnce (NewClient transport) None q endpoint w)
     = Err (QueryError "context must be non-nil").
Proof. split; reflexivity. Qed.

(** * Further properties *)

(** ** The status predicates *)

(** X1: the status predicates of an [ErrorResponse] agree with each
    other and with the retry decision: not-found and rate-limit responses
    are client errors, no response is both a client and a server error,
    a response with a status from 400 on is one of the two, and a client
    error is never retried. *)
Theorem status_predicates r message :
  (IsNotFound r = true -> IsClientError r = true)
  /\ (IsRateLimit r = true -> IsClientError r = true)
  /\ (IsClientError r = true -> IsServerError r = false)
  /\ (forall resp, r = Some resp ->
      (IsClientError r || IsServerError r = true <-> (400 <= StatusCode resp)%Z))
  /\ (IsClientError r = true ->
      shouldRetry (Some (ErrorResponse r message)) = false)
  /\ (r = None ->
      IsNotFound r = false /\ IsRateLimit r = false
      /\ IsClientError r = false /\ IsServerError r = false).
Proof.
  unfold IsNotFound, IsRateLimit, IsClientError, IsServerError, shouldRetry,
    IsQueryError, StatusNotFound, StatusTooManyRequests.
  destruct r as [resp|].
  - repeat match goal with |- _ /\ _ => split end; try discriminate.
    + intros Hx. apply Z.eqb_eq in Hx. rewrite Hx. reflexivity.
    + intros Hx. apply Z.eqb_eq in Hx. rewrite Hx. reflexivity.
    + intros Hx. apply andb_true_iff in Hx as [_ Hx]. apply Z.ltb_lt in Hx.
      apply Z.leb_gt. exact Hx.
    + intros resp' Hr. injection Hr as <-.
      rewrite orb_true_iff, andb_true_iff, !Z.leb_le, Z.ltb_lt. lia.
    + intros Hx. apply andb_true_iff in Hx as [_ Hx]. apply Z.ltb_lt in Hx.
      apply Z.leb_gt. exact Hx.
  - repeat match goal with |- _ /\ _ => split end; try discriminate; auto.
Qed.

(** ** More on the query builder *)

(** X2: [BuildURL] succeeds exactly when the base URL is not nil, the
    endpoint is not empty and one selector field is left after trimming;
    and every error it returns is a [QueryError]. *)
Theorem BuildURL_outcomes `{NetLib} q base endpoint :
  ((exists url, BuildURL q base endpoint = Ok url)
   <-> base <> None /\ endpoint <> "" /\ length (activeSelectors q) = 1%nat)
  /\ (forall e, BuildURL q base endpoint = Err e ->
      IsQueryError (Some e) = true).
Proof.
  pose proof (singleSelector_active q) as Hs. unfold BuildURL.
  destruct base as [base|].
  2:{ split.
      - split; [intros [url Hx]; discriminate|intros [Hx _]; congruence].
      - intros e He. injection He as <-. reflexivity. }
  destruct (String.eqb_spec endpoint "") as [->|Hep].
  { split.
    - split; [intros [url Hx]; discriminate|intros (_ & Hx & _); congruence].
    - intros e He. injection He as <-. reflexivity. }
  destruct (activeSelectors q) as [|[key val] [|p rest]]; rewrite Hs.
  - split.
    + split; [intros [url Hx]; discriminate|intros (_ & _ & Hx); discriminate].
    + intros e He. injection He as <-. reflexivity.
  - split.
    + split; [intros _; repeat split; congruence|intros _; eexists; reflexivity].
    + discriminate.
  - split.
    + split; [intros [url Hx]; discriminate|intros (_ & _ & Hx); discriminate].
    + intros e He. injection He as <-. reflexivity.
Qed.

Lemma TrimSpace_empty : TrimSpace "" = "".
Proof. reflexivity. Qed.

(** The selector of a query built by one of the five constructors. *)
Lemma singleSelector_one (a b c d e : string) f fl (key val : string) :
  List.filter (fun kv => negb (String.eqb (snd kv) ""))
    [("CATNR", TrimSpace a); ("INTDES", TrimSpace b); ("GROUP", TrimSpace c);
     ("NAME", TrimSpace d); ("SPECIAL", TrimSpace e)] = [(key, val)] ->
  singleSelector (mkQuery a b c d e f fl) = Ok (key, val).
Proof.
  intros Hact. pose proof (singleSelector_active (mkQuery a b c d e f fl)) as Hs.
  unfold activeSelectors in Hs. cbn [CATNR INTDES GROUP NAME SPECIAL] in Hs.
  rewrite Hact in Hs. exact Hs.
Qed.

(** X3: a query made by one of the five constructors from a value that
    is not blank is valid for every endpoint: its URL carries the trimmed
    value under the key of the constructor, and [FORMAT]; the two
    parameters come by ascending key, so only [CATNR] comes before
    [FORMAT]. *)
Theorem QueryBy_URL `{NetLib} (v : string) (format : Format) base endpoint :
  TrimSpace v <> "" ->
  endpoint <> "" ->
  let fmt := if String.eqb format "" then FormatTLE else format in
  BuildURL (QueryByCATNR v format) (Some base) endpoint
  = Ok (urlWith base endpoint [("CATNR", TrimSpace v); ("FORMAT", fmt)])
  /\ BuildURL (QueryByINTDES v format) (Some base) endpoint
     = Ok (urlWith base endpoint [("FORMAT", fmt); ("INTDES", TrimSpace v)])
  /\ BuildURL (QueryByGROUP v format) (Some base) endpoint
     = Ok (urlWith base endpoint [("FORMAT", fmt); ("GROUP", TrimSpace v)])
  /\ BuildURL (QueryByName v format) (Some base) endpoint
     = Ok (urlWith base endpoint [("FORMAT", fmt); ("NAME", TrimSpace v)])
  /\ BuildURL (QueryBySPECIAL v format) (Some base) endpoint
     = Ok (urlWith base endpoint [("FORMAT", fmt); ("SPECIAL", TrimSpace v)]).
Proof.
  intros Hv Hep fmt.
  assert (Hne : negb (String.eqb (TrimSpace v) "") = true)
    by (rewrite eqb_empty_false by exact Hv; reflexivity).
  assert (Hflags : forall q key val,
    tableFlags q = noFlags ->
    insertionOrder q endpoint key val = [(key, val); ("FORMAT", formatOf q)]).
  { intros q key val Hq. unfold insertionOrder, enabledFlags. rewrite Hq.
    destruct (String.eqb endpoint "table.php"); reflexivity. }
  unfold QueryByCATNR, QueryByINTDES, QueryByGROUP, QueryByName, QueryBySPECIAL.
  repeat match goal with |- _ /\ _ => split end;
    (erewrite BuildURL_selected;
     [ | exact Hep
       | apply singleSelector_one; rewrite !TrimSpace_empty;
         cbn [List.filter snd]; rewrite Hne;
         change (negb (String.eqb "" "")) with false; cbv iota; reflexivity ];
     unfold keyOrder; rewrite Hflags by reflexivity;
     unfold formatOf; cbn [FORMAT]; fold fmt;
     generalize (TrimSpace v) fmt; intros v' f'; reflexivity).
Qed.

(** The flags do not matter off the table endpoint. *)
Lemma BuildURL_flags_ignored `{NetLib} q flags base endpoint :
  endpoint <> "table.php" ->
  BuildURL (withTableFlags q flags) base endpoint = BuildURL q base endpoint.
Proof.
  intros Hep. unfold BuildURL, queryParams, singleSelector, withTableFlags.
  cbn [CATNR INTDES GROUP NAME SPECIAL FORMAT].
  rewrite (proj2 (String.eqb_neq _ _) Hep). reflexivity.
Qed.

(** X4: the table flags reach the URL on the table endpoint only.  For
    any other endpoint the URL does not depend on the flags; for
    [table.php] the URL has the parameter of a flag, with the value 1,
    exactly when the flag is set. *)
Theorem BuildURL_table_flags `{NetLib} q base endpoint key val :
  endpoint <> "" ->
  singleSelector q = Ok (key, val) ->
  (endpoint <> "table.php" ->
   forall flags,
     BuildURL (withTableFlags q flags) (Some base) endpoint
     = BuildURL q (Some base) endpoint)
  /\ (endpoint = "table.php" ->
      exists ps,
        BuildURL q (Some base) endpoint = Ok (urlWith base endpoint ps)
        /\ forall name field,
             In (name, field) flagParams ->
             (In (name, "1") ps <-> field (tableFlags q) = true)
             /\ (forall v, In (name, v) ps -> v = "1")).
Proof.
  intros Hep Hs. split.
  - intros Hne flags. apply BuildURL_flags_ignored. exact Hne.
  - intros ->. exists (keyOrder q "table.php" key val).
    split; [apply BuildURL_selected; assumption|].
    destruct (singleSelector_Ok _ _ _ Hs) as [_ Hkey].
    destruct (keyOrder_sorted q "table.php" key val) as [Hperm _].
    assert (Hin : forall kv, In kv (keyOrder q "table.php" key val)
                             <-> In kv (insertionOrder q "table.php" key val)).
    { intros kv. rewrite <- !list_elem_of_In, Hperm. reflexivity. }
    intros name field Hname.
    assert (Hsel : name <> key /\ name <> "FORMAT").
    { unfold flagParams in Hname. unfold selectorKeys in Hkey.
      cbn in Hname, Hkey.
      intuition (match goal with Hx : (_, _) = (_, _) |- _ =>
                   injection Hx as <- _ end; subst; discriminate). }
    unfold insertionOrder in Hin. cbn [String.eqb Ascii.eqb Bool.eqb] in Hin.
    unfold flagParams in Hname. cbn in Hname.
    split.
    + rewrite Hin. unfold enabledFlags. cbn [app In].
      rewrite !in_app_iff.
      destruct (tableFlags q) as [[] [] [] [] []];
        cbn [BSTAR ShowOps Oldest Docked Movers In];
        intuition (repeat match goal with
                   | Hx : (_, _) = (_, _) |- _ => injection Hx as <- <-
                   end; subst; cbn in *; try congruence; auto 10).
    + intros v Hv. apply Hin in Hv. unfold enabledFlags in Hv.
      cbn [app In] in Hv. rewrite !in_app_iff in Hv.
      destruct (tableFlags q) as [[] [] [] [] []];
        cbn [BSTAR ShowOps Oldest Docked Movers In] in Hv;
        intuition congruence.
Qed.

(** ** More on a single attempt *)

(** What becomes of a 2xx response, by the length of its body. *)
Lemma handleResponse_2xx {St} (c : Client St) key cached resp (w : World St) :
  (200 <= StatusCode resp <= 299)%Z ->
  handleResponse c key cached resp w
  = let data := content (RespBody resp) in
    if (len data <? maxResponseSize)%N then
      match broken (RespBody resp) with
      | Some m => (Err (Wrap "read response" (LibError m)), w)
      | None =>
          if (len data =? 0)%N
          then (Err (ErrorResponse (Some resp) "empty response body"), w)
          else (Ok data, cacheStore c key data resp w)
      end
    else if (maxResponseSize <? len data)%N
    then (Err (ErrorResponse (Some resp) tooLarge), w)
    else (Ok data, cacheStore c key data resp w).
Proof.
  intros Hcode. unfold handleResponse, StatusNotModified.
  rewrite (proj2 (Z.eqb_neq (StatusCode resp) 304)) by lia.
  rewrite (proj2 (Z.ltb_ge (StatusCode resp) 200)) by lia.
  rewrite (proj2 (Z.ltb_ge 299 (StatusCode resp))) by lia.
  cbn [orb]. rewrite ReadAllLimit_spec. cbv zeta.
  set (data := content (RespBody resp)).
  assert (Hmax : (0 < maxResponseSize)%N) by reflexivity.
  unfold firstBytes, ReadOne. cbn [content].
  destruct (N.ltb_spec (len data) maxResponseSize) as [Hlt|Hge].
  - rewrite firstn_all2 by (unfold len in Hlt; lia).
    destruct (broken (RespBody resp)); [reflexivity|].
    rewrite (proj2 (N.eqb_neq (len data) maxResponseSize)) by lia.
    reflexivity.
  - rewrite len_firstn, N.min_l by exact Hge. rewrite N.eqb_refl. cbn [andb].
    destruct (skipn (N.to_nat maxResponseSize) data) as [|x rest] eqn:Hrest.
    + assert (Hlen : len data = maxResponseSize).
      { apply (f_equal (@length _)) in Hrest. rewrite length_skipn in Hrest.
        cbn in Hrest. unfold len in *. lia. }
      cbn [Z.ltb Z.compare].
      rewrite (proj2 (N.eqb_neq maxResponseSize 0)) by lia.
      rewrite firstn_all2 by (unfold len in Hlen; lia).
      rewrite (proj2 (N.ltb_ge maxResponseSize (len data))) by lia.
      reflexivity.
    + assert (Hlen : (maxResponseSize < len data)%N).
      { apply (f_equal (@length _)) in Hrest. rewrite length_skipn in Hrest.
        cbn in Hrest. unfold len in *. lia. }
      cbn [Z.ltb Z.compare].
      rewrite (proj2 (N.ltb_lt maxResponseSize (len data))) by lia.
      reflexivity.
Qed.

Section AttemptExtras.
Context `{NetLib} {St : Type}.
Implicit Types (c : Client St) (w : World St).

(** X5: an attempt that receives a 2xx response with an empty body fails
    with the "empty response body" [ErrorResponse]; the error is not
    retried and the cache is not written. *)
Theorem fetchOnce_empty_body c ctx q endpoint w url resp :
  answered c ctx q endpoint w url resp ->
  (200 <= StatusCode resp <= 299)%Z ->
  content (RespBody resp) = [] ->
  broken (RespBody resp) = None ->
  exists req,
    requested c ctx q endpoint w url req
    /\ fetchOnce c ctx q endpoint w
       = (Err (ErrorResponse (Some resp) "empty response body"),
          afterRequest c url req w)
    /\ shouldRetry (Some (ErrorResponse (Some resp) "empty response body"))
       = false
    /\ cacheWrites (cacheReads c url ++ [HttpDo req]) = [].
Proof.
  intros Hans Hcode Hbody Hbroken.
  destruct (fetchOnce_answered _ _ _ _ _ _ _ Hans) as (req & Hrq & ->).
  exists req. split; [exact Hrq|].
  rewrite handleResponse_2xx by exact Hcode. cbv zeta.
  rewrite Hbody, Hbroken. split; [reflexivity|]. split.
  - unfold shouldRetry, IsQueryError, IsServerError. apply Z.leb_gt. lia.
  - unfold cacheReads. destruct (cache c); reflexivity.
Qed.

(** X6: an attempt whose 2xx body breaks off with a read error before
    the cap fails with that error wrapped as "read response"; the error
    is retried by the loop and the cache is not written. *)
Theorem fetchOnce_read_error c ctx q endpoint w url resp m :
  answered c ctx q endpoint w url resp ->
  (200 <= StatusCode resp <= 299)%Z ->
  (len (content (RespBody resp)) < maxResponseSize)%N ->
  broken (RespBody resp) = Some m ->
  exists req,
    requested c ctx q endpoint w url req
    /\ fetchOnce c ctx q endpoint w
       = (Err (Wrap "read response" (LibError m)), afterRequest c url req w)
    /\ shouldRetry (Some (Wrap "read response" (LibError m))) = true
    /\ cacheWrites (cacheReads c url ++ [HttpDo req]) = [].
Proof.
  intros Hans Hcode Hlen Hbroken.
  destruct (fetchOnce_answered _ _ _ _ _ _ _ Hans) as (req & Hrq & ->).
  exists req. split; [exact Hrq|].
  rewrite handleResponse_2xx by exact Hcode. cbv zeta.
  rewrite (proj2 (N.ltb_lt _ _) Hlen), Hbroken.
  split; [reflexivity|]. split; [reflexivity|].
  unfold cacheReads. destruct (cache c); reflexivity.
Qed.

(** A 2xx response with a usable body. *)
Lemma fetchOnce_usable_body c ctx q endpoint w url resp :
  answered c ctx q endpoint w url resp ->
  (200 <= StatusCode resp <= 299)%Z ->
  (0 < len (content (RespBody resp)) <= maxResponseSize)%N ->
  broken (RespBody resp) = None ->
  exists req,
    requested c ctx q endpoint w url req
    /\ fetchOnce c ctx q endpoint w
       = (Ok (content (RespBody resp)),
          cacheStore c url (content (RespBody resp)) resp
                     (afterRequest c url req w)).
Proof.
  intros Hans Hcode Hlen Hbroken.
  destruct (fetchOnce_answered _ _ _ _ _ _ _ Hans) as (req & Hrq & ->).
  exists req. split; [exact Hrq|].
  rewrite handleResponse_2xx by exact Hcode. cbv zeta. rewrite Hbroken.
  rewrite (proj2 (N.eqb_neq (len (content (RespBody resp))) 0)) by lia.
  rewrite (proj2 (N.ltb_ge maxResponseSize (len (content (RespBody resp)))))
    by lia.
  destruct (len (content (RespBody resp)) <? maxResponseSize)%N; reflexivity.
Qed.

Lemma store_cacheStore c url body resp w :
  store (cacheStore c url body resp w)
  = match cache c with
    | Some ch => Put ch url body (TrimSpace (Header_ETag resp)) (store w)
    | None => store w
    end.
Proof. unfold cacheStore. destruct (cache c); reflexivity. Qed.

(** X7: an attempt that receives a 2xx response with a body that is not
    empty, is not larger than the cap and ends without an error returns
    the body as it is; a configured cache then holds [Put] of the URL, the
    body and the trimmed [ETag]; without a cache nothing else happens. *)
Theorem fetchOnce_success c ctx q endpoint w url resp :
  answered c ctx q endpoint w url resp ->
  (200 <= StatusCode resp <= 299)%Z ->
  (0 < len (content (RespBody resp)) <= maxResponseSize)%N ->
  broken (RespBody resp) = None ->
  exists req,
    requested c ctx q endpoint w url req
    /\ fst (fetchOnce c ctx q endpoint w) = Ok (content (RespBody resp))
    /\ store (snd (fetchOnce c ctx q endpoint w))
       = match cache c with
         | Some ch =>
             Put ch url (content (RespBody resp))
                 (TrimSpace (Header_ETag resp))
                 (storeAfterGet c url (store w))
         | None => store w
         end
    /\ sent (snd (fetchOnce c ctx q endpoint w)) = S (sent w).
Proof.
  intros Hans Hcode Hlen Hbroken.
  destruct (fetchOnce_usable_body _ _ _ _ _ _ _ Hans Hcode Hlen Hbroken)
    as (req & Hrq & ->).
  exists req. split; [exact Hrq|]. cbn [fst snd]. split; [reflexivity|].
  split.
  - rewrite store_cacheStore. unfold afterRequest, storeAfterGet.
    destruct (cache c); reflexivity.
  - unfold cacheStore, afterRequest. destruct (cache c); reflexivity.
Qed.

(** X8: an attempt whose request the transport refuses fails with an
    error that wraps the error of the context when the context is done
    by then, and the error of the transport otherwise; either error is
    retried by the loop, and the cache is not written. *)
Theorem fetchOnce_transport_error c ctx q endpoint w url req m :
  requested c ctx q endpoint w url req ->
  httpClient c (sent w) req = DoError m ->
  exists cx err,
    ctx = Some cx
    /\ fst (fetchOnce c ctx q endpoint w) = Err err
    /\ err = match Context_Err cx (S (clock w)) with
             | Some e => Wrap "request cancelled" (ContextError e)
             | None => Wrap "request failed" (LibError m)
             end
    /\ shouldRetry (Some err) = true
    /\ trace (snd (fetchOnce c ctx q endpoint w))
       = (trace w ++ cacheReads c url ++ [HttpDo req])%list.
Proof.
  intros Hrq Hdo.
  destruct (fetchOnce_requested _ _ _ _ _ _ _ Hrq) as (cx & -> & ->).
  rewrite Hdo. exists cx. cbn [fst snd trace].
  destruct (Context_Err cx (S (clock w))) as [e|];
    eexists; (split; [reflexivity|]); (split; [reflexivity|]);
    (split; [reflexivity|]); split; reflexivity.
Qed.

(** The kinds of error an attempt under a context returns: a wrapped
    error, or the [ErrorResponse] for the response it received. *)
Lemma fetchOnce_error_kinds c cx q endpoint w e :
  fst (fetchOnce c (Some cx) q endpoint w) = Err e ->
  (exists text inner, e = Wrap text inner)
  \/ (exists url resp message,
        answered c (Some cx) q endpoint w url resp
        /\ e = ErrorResponse (Some resp) message).
Proof.
  destruct (Context_Err cx (clock w)) as [ce|] eqn:Hlive.
  { unfold fetchOnce, observe. rewrite Hlive. cbn [fst].
    intros He. injection He as <-. left. eauto. }
  destruct (BuildURL q (baseURL c) endpoint) as [url|err] eqn:Hurl.
  2:{ unfold fetchOnce, observe. rewrite Hlive, Hurl. cbn [fst].
      intros He. injection He as <-. left. eauto. }
  destruct (requestError url) as [m|] eqn:Hreq.
  { unfold fetchOnce, observe. rewrite Hlive, Hurl, cacheLookup_spec, Hreq.
    cbn [fst]. intros He. injection He as <-. left. eauto. }
  set (req := newRequest c url (cachedEntry c url (store w))).
  assert (Hrq : requested c (Some cx) q endpoint w url req).
  { exists cx. repeat split; assumption. }
  destruct (fetchOnce_requested _ _ _ _ _ _ _ Hrq) as (cx' & _ & ->).
  destruct (httpClient c (sent w) req) as [m|resp] eqn:Hdo.
  { cbn [fst]. destruct (Context_Err cx' _); intros He; injection He as <-;
      left; eauto. }
  assert (Hans : answered c (Some cx) q endpoint w url resp).
  { exists req. split; assumption. }
  unfold handleResponse.
  destruct (StatusCode resp =? StatusNotModified)%Z.
  { destruct (cachedEntry c url (store w)) as [[data etag]|]; cbn [fst];
      [discriminate|]. intros He. injection He as <-. right. eauto 6. }
  destruct ((StatusCode resp <? 200)%Z || (299 <? StatusCode resp)%Z).
  { destruct (ReadAllLimit _ _) as [[b x] y]. cbn [fst].
    intros He. injection He as <-. right. eauto 6. }
  destruct (ReadAllLimit _ _) as [[body [m|]] rest]; cbn [fst].
  { intros He. injection He as <-. left. eauto. }
  destruct ((len body =? maxResponseSize)%N && (0 <? ReadOne rest)%Z).
  { cbn [fst]. intros He. injection He as <-. right. eauto 6. }
  destruct (len body =? 0)%N; cbn [fst]; [|discriminate].
  intros He. injection He as <-. right. eauto 6.
Qed.

(** X9: the only errors of an attempt that end the retry loop are the
    [QueryError] for a nil context and the [ErrorResponse] for a received
    response whose status is below 500; every other failure of an attempt
    (a done context, a query that cannot be built, a request that cannot
    be made or fails, a body that cannot be read) is retried. *)
Theorem fetchOnce_final_errors c ctx q endpoint w e :
  fst (fetchOnce c ctx q endpoint w) = Err e ->
  shouldRetry (Some e) = false ->
  (ctx = None /\ e = QueryError "context must be non-nil")
  \/ (exists url resp message,
        answered c ctx q endpoint w url resp
        /\ e = ErrorResponse (Some resp) message
        /\ (StatusCode resp < 500)%Z).
Proof.
  intros He Hno. destruct ctx as [cx|].
  - right. destruct (fetchOnce_error_kinds _ _ _ _ _ _ He)
      as [(text & inner & ->)|(url & resp & message & Hans & ->)].
    + discriminate.
    + exists url, resp, message. split; [exact Hans|]. split; [reflexivity|].
      unfold shouldRetry, IsQueryError, IsServerError in Hno.
      apply Z.leb_gt. exact Hno.
  - left. split; [reflexivity|]. cbn in He. congruence.
Qed.

End AttemptExtras.

(** X10: with a map as the cache, what an attempt stores comes back:
    after a successful attempt, an attempt for the same query that
    receives 304 returns the bytes of the first response, and its request
    carries the stored validator in [If-None-Match] when that is not
    empty. *)
Theorem cache_round_trip `{NetLib} (c : Client (gmap string (bytes * string)))
  ctx q endpoint w url resp resp' :
  cache c = Some mapCache ->
  answered c ctx q endpoint w url resp ->
  (200 <= StatusCode resp <= 299)%Z ->
  (0 < len (content (RespBody resp)) <= maxResponseSize)%N ->
  broken (RespBody resp) = None ->
  answered c ctx q endpoint (snd (fetchOnce c ctx q endpoint w)) url resp' ->
  StatusCode resp' = 304%Z ->
  fst (fetchOnce c ctx q endpoint (snd (fetchOnce c ctx q endpoint w)))
  = Ok (content (RespBody resp))
  /\ forall req,
       requested c ctx q endpoint (snd (fetchOnce c ctx q endpoint w)) url req ->
       (In ("If-None-Match", TrimSpace (Header_ETag resp)) (req_Header req)
        <-> TrimSpace (Header_ETag resp) <> "").
Proof.
  intros Hcache Hans Hcode Hlen Hbroken Hans' H304.
  destruct (fetchOnce_usable_body _ _ _ _ _ _ _ Hans Hcode Hlen Hbroken)
    as (req0 & _ & Hrun).
  assert (Hstore : store (snd (fetchOnce c ctx q endpoint w))
                   = <[url := (content (RespBody resp),
                               TrimSpace (Header_ETag resp))]>
                       (storeAfterGet c url (store w))).
  { rewrite Hrun. cbn [snd]. rewrite store_cacheStore, Hcache. reflexivity. }
  assert (Hentry : cachedEntry c url (store (snd (fetchOnce c ctx q endpoint w)))
                   = Some (content (RespBody resp), TrimSpace (Header_ETag resp))).
  { unfold cachedEntry. rewrite Hcache, Hstore. cbn [Get mapCache fst].
    apply lookup_insert_eq. }
  split.
  - destruct (fetchOnce_answered _ _ _ _ _ _ _ Hans') as (req & _ & ->).
    unfold handleResponse, StatusNotModified. rewrite H304, Hentry.
    reflexivity.
  - intros req (cx & _ & _ & _ & _ & ->). rewrite Hentry.
    unfold newRequest. cbn [req_Header].
    destruct (String.eqb_spec (TrimSpace (Header_ETag resp)) "") as [He|He];
      cbn [negb].
    + split; [|congruence].
      destruct (negb (String.eqb (userAgent c) "")); cbn [In];
        intuition (try discriminate).
    + split; [intros _; exact He|]. intros _. left. reflexivity.
Qed.

(** ** More on the retry loop *)

(** The events of the write to the cache and of the handling of a
    response: no attempt, no request, no wait. *)
Lemma cacheStore_events {St} (c : Client St) key body resp (w : World St) :
  exists evs,
    trace (cacheStore c key body resp w) = (trace w ++ evs)%list
    /\ attempts evs = 0%nat /\ requests evs = 0%nat /\ sleeps evs = []
    /\ sent (cacheStore c key body resp w) = sent w.
Proof.
  unfold cacheStore. destruct (cache c) as [ch|].
  - eexists. cbn [trace sent]. split; [reflexivity|]. cbn. auto.
  - exists []. rewrite app_nil_r. cbn. auto.
Qed.

Lemma handleResponse_events `{NetLib} {St} (c : Client St) key cached resp
  (w : World St) :
  exists evs,
    trace (snd (handleResponse c key cached resp w)) = (trace w ++ evs)%list
    /\ attempts evs = 0%nat /\ requests evs = 0%nat /\ sleeps evs = []
    /\ sent (snd (handleResponse c key cached resp w)) = sent w.
Proof.
  destruct (handleResponse_cases c key cached resp w)
    as [[-> _]|(_ & body & ->)].
  - exists []. rewrite app_nil_r. cbn. auto.
  - cbn [snd]. apply cacheStore_events.
Qed.

(** The events of an attempt that makes its request and does no more. *)
Lemma request_events {St} (c : Client St) url req :
  attempts (cacheReads c url ++ [HttpDo req]) = 0%nat
  /\ requests (cacheReads c url ++ [HttpDo req]) = 1%nat
  /\ sleeps (cacheReads c url ++ [HttpDo req]) = []
  /\ cacheWrites (cacheReads c url ++ [HttpDo req]) = [].
Proof. unfold cacheReads. destruct (cache c); cbn; auto. Qed.

(** The write to the cache after a success, as an event. *)
Lemma trace_cacheStore {St} (c : Client St) url resp (w : World St) :
  trace (cacheStore c url (content (RespBody resp)) resp w)
  = (trace w ++ cachePuts c url resp)%list.
Proof.
  unfold cacheStore, cachePuts. destruct (cache c); [reflexivity|].
  rewrite app_nil_r. reflexivity.
Qed.

Lemma cachePuts_counts {St} (c : Client St) url resp :
  attempts (cachePuts c url resp) = 0%nat
  /\ requests (cachePuts c url resp) = 0%nat
  /\ sleeps (cachePuts c url resp) = [].
Proof. unfold cachePuts. destruct (cache c); cbn; auto. Qed.

Section Scripted.
Context `{NetLib} {St : Type}.
Variables (c : Client St) (cx : Context) (q : Query) (endpoint url : string).
Hypothesis live : forall n, Context_Err cx n = None.
Hypothesis built : BuildURL q (baseURL c) endpoint = Ok url.
Hypothesis accepted : requestError url = None.

(** An attempt that receives a response. *)
Lemma attempt_answered w resp :
  (forall req, httpClient c (sent w) req = DoResponse resp) ->
  answered c (Some cx) q endpoint w url resp
  /\ fetchOnce c (Some cx) q endpoint w
     = handleResponse c url (cachedEntry c url (store w)) resp
         (afterRequest c url
            (newRequest c url (cachedEntry c url (store w))) w).
Proof.
  intros Hdo.
  assert (Hrq := requested_here c cx q endpoint url live built accepted w).
  split.
  - eexists. split; [exact Hrq|apply Hdo].
  - destruct (fetchOnce_requested _ _ _ _ _ _ _ Hrq) as (cx' & _ & ->).
    rewrite Hdo. reflexivity.
Qed.

(** X11: when the first [K] attempts of a call get transient answers
    (the transport fails, or the status is 500 or more) and the next one
    a 2xx response with a usable body, [fetch] returns that body after
    [K + 1] attempts and requests, having waited [d], [2d], ...,
    [2^(K-1) d] between them; with [K = 0] there is no wait.  What the
    call does is, in this order, the rounds 1 to [K + 1], each with its
    wait in front unless it is the first, and then the write to the
    cache when there is one. *)
Theorem fetch_recovers (script : nat -> RoundTrip) (K : nat) w resp :
  (Z.of_nat K <= maxRetries c)%Z ->
  (maxRetries c < 2 ^ 63 - 1)%Z ->
  (- 2 ^ 63 <= retryDelay c * 2 ^ (Z.of_nat K - 1) < 2 ^ 63)%Z ->
  (forall i req, (i < K)%nat ->
     httpClient c (sent w + i)%nat req = script (sent w + i)%nat) ->
  (forall i, (i < K)%nat -> transient (script (sent w + i)%nat) = true) ->
  (forall req, httpClient c (sent w + K)%nat req = DoResponse resp) ->
  (200 <= StatusCode resp <= 299)%Z ->
  (0 < len (content (RespBody resp)) <= maxResponseSize)%N ->
  broken (RespBody resp) = None ->
  exists w' evs,
    fetch c (Some cx) q endpoint w
    = Some (Returned (Ok (content (RespBody resp))), w')
    /\ trace w' = (trace w ++ evs)%list
    /\ evs = (roundsEvents c url (retryDelay c) (store w) (S K)
                ++ cachePuts c url resp)%list
    /\ attempts evs = S K /\ requests evs = S K
    /\ sleeps evs = backoff (retryDelay c) K.
Proof.
  intros HK Hmax Hrange Hdo Htr Hlast Hcode Hlen Hbroken.
  destruct (fetch_ends_after_transients c cx q endpoint url live built accepted
              script K w (Ok (content (RespBody resp))) (cachePuts c url resp))
    as (w' & Hrun & Ht); try assumption.
  - intros w0 Hs0.
    destruct (attempt_answered w0 resp) as (Hans & Hrun).
    { intros req. rewrite Hs0. apply Hlast. }
    destruct (fetchOnce_usable_body _ _ _ _ _ _ _ Hans Hcode Hlen Hbroken)
      as (req & (cx' & _ & _ & _ & _ & ->) & Hok).
    eexists. split; [exact Hok|].
    rewrite trace_cacheStore. unfold afterRequest. cbn [trace].
    rewrite <- !app_assoc. reflexivity.
  - discriminate.
  - destruct (roundsEvents_counts c url (retryDelay c) (store w) (S K))
      as (Ha & Hr & Hz).
    destruct (cachePuts_counts c url resp) as (Ha1 & Hr1 & Hz1).
    exists w', (roundsEvents c url (retryDelay c) (store w) (S K)
                  ++ cachePuts c url resp)%list.
    split; [exact Hrun|]. split; [exact Ht|]. split; [reflexivity|].
    rewrite attempts_app, requests_app, sleeps_app, Ha, Hr, Hz, Ha1, Hr1, Hz1.
    rewrite app_nil_r. cbn [pred]. repeat split; lia.
Qed.

(** X12: when the attempt after [K] transient answers receives a
    response whose status is below 500 and neither 2xx nor 304, [fetch]
    stops there: it returns the [ErrorResponse] for that response as it
    is, not wrapped, after [K + 1] attempts, however many retries are
    left. *)
Theorem fetch_status_error_is_final (script : nat -> RoundTrip) (K : nat) w
  resp :
  (Z.of_nat K <= maxRetries c)%Z ->
  (maxRetries c < 2 ^ 63 - 1)%Z ->
  (- 2 ^ 63 <= retryDelay c * 2 ^ (Z.of_nat K - 1) < 2 ^ 63)%Z ->
  (forall i req, (i < K)%nat ->
     httpClient c (sent w + i)%nat req = script (sent w + i)%nat) ->
  (forall i, (i < K)%nat -> transient (script (sent w + i)%nat) = true) ->
  (forall req, httpClient c (sent w + K)%nat req = DoResponse resp) ->
  StatusCode resp <> 304%Z ->
  (StatusCode resp < 200 \/ 299 < StatusCode resp < 500)%Z ->
  exists w' evs,
    fetch c (Some cx) q endpoint w
    = Some (Returned (Err (ErrorResponse (Some resp) (statusMessage resp))), w')
    /\ trace w' = (trace w ++ evs)%list
    /\ attempts evs = S K /\ requests evs = S K
    /\ sleeps evs = backoff (retryDelay c) K.
Proof.
  intros HK Hmax Hrange Hdo Htr Hlast H304 Hcode.
  destruct (fetch_ends_after_transients c cx q endpoint url live built accepted
              script K w
              (Err (ErrorResponse (Some resp) (statusMessage resp))) [])
    as (w' & Hrun & Ht); try assumption.
  - intros w0 Hs0.
    destruct (attempt_answered w0 resp) as (_ & Hrun).
    { intros req. rewrite Hs0. apply Hlast. }
    rewrite handleResponse_error_status in Hrun by lia.
    eexists. split; [exact Hrun|].
    unfold afterRequest. cbn [trace]. rewrite app_nil_r, <- ?app_assoc.
    reflexivity.
  - intros e He. injection He as <-.
    unfold shouldRetry, IsQueryError, IsServerError. apply Z.leb_gt. lia.
  - destruct (roundsEvents_counts c url (retryDelay c) (store w) (S K))
      as (Ha & Hr & Hz).
    exists w', (roundsEvents c url (retryDelay c) (store w) (S K) ++ [])%list.
    split; [exact Hrun|]. split; [exact Ht|].
    rewrite app_nil_r, Ha, Hr, Hz. cbn [pred]. repeat split; reflexivity.
Qed.

(** X13: with [maxRetries = m] from 0 to below the largest [int] and
    [retryDelay = d] such that [d * 2^(m-1)] is a 64-bit duration, when
    every attempt of a call gets a transient answer, [fetch] makes
    [m + 1] attempts, waits [d], [2d], ... between them and returns the
    error of the last attempt wrapped in "max retries (m) exceeded"; the
    type assertions of [IsErrorResponse] and [IsQueryError] fail on what
    it returns, also when every answer was a response with a status from
    500 on.  What the call does is, in this order, the rounds 1 to
    [m + 1], each with its wait in front unless it is the first; nothing
    comes after the last request. *)
Theorem fetch_exhausts_retries (script : nat -> RoundTrip) w :
  (0 <= maxRetries c < 2 ^ 63 - 1)%Z ->
  (- 2 ^ 63 <= retryDelay c * 2 ^ (maxRetries c - 1) < 2 ^ 63)%Z ->
  (forall i req, (Z.of_nat i <= maxRetries c)%Z ->
     httpClient c (sent w + i)%nat req = script (sent w + i)%nat) ->
  (forall i, (Z.of_nat i <= maxRetries c)%Z ->
     transient (script (sent w + i)%nat) = true) ->
  exists err w' evs,
    fetch c (Some cx) q endpoint w = Some (Returned (Err err), w')
    /\ err = Wrap ("max retries (" +:+ itoa (maxRetries c) +:+ ") exceeded")
                  (transientError
                     (script (sent w + Z.to_nat (maxRetries c))%nat))
    /\ IsErrorResponse (Some err) = false
    /\ IsQueryError (Some err) = false
    /\ trace w' = (trace w ++ evs)%list
    /\ evs = roundsEvents c url (retryDelay c) (store w)
               (S (Z.to_nat (maxRetries c)))
    /\ Z.of_nat (attempts evs) = (maxRetries c + 1)%Z
    /\ Z.of_nat (requests evs) = (maxRetries c + 1)%Z
    /\ sleeps evs = backoff (retryDelay c) (Z.to_nat (maxRetries c)).
Proof.
  intros Hm Hrange Hdo Htr.
  destruct (fetch_after_transients c cx q endpoint url live built accepted
              script (S (Z.to_nat (maxRetries c))) w)
    as (wK & Hrun & _ & _ & Ht); try lia.
  { intros i req Hi. apply Hdo. lia. }
  { intros i Hi. apply Htr. lia. }
  { intros _.
    replace (Z.of_nat (S (Z.to_nat (maxRetries c))) - 2)%Z
      with (maxRetries c - 1)%Z by lia.
    exact Hrange. }
  destruct (roundsEvents_counts c url (retryDelay c) (store w)
              (S (Z.to_nat (maxRetries c)))) as (Ha & Hr & Hz).
  eexists _, wK, _. split.
  { rewrite Hrun. cbn [fetchLoop].
    rewrite (proj2 (Z.leb_gt _ _)) by lia. reflexivity. }
  split; [reflexivity|]. split; [reflexivity|]. split; [reflexivity|].
  split; [exact Ht|]. split; [reflexivity|]. rewrite Ha, Hr, Hz. cbn [pred].
  split; [lia|]. split; [lia|reflexivity].
Qed.

End Scripted.

(** ** What every call of the loop does *)

Section LoopExtras.
Context `{NetLib} {St : Type}.
Implicit Types (c : Client St) (w : World St).

(** The events of an attempt: at most one request, no wait. *)
Lemma fetchOnce_events c ctx q endpoint w :
  exists evs,
    trace (snd (fetchOnce c ctx q endpoint w)) = (trace w ++ evs)%list
    /\ attempts evs = 0%nat /\ (requests evs <= 1)%nat /\ sleeps evs = [].
Proof.
  assert (Hnil : exists evs : list Event,
            trace w = (trace w ++ evs)%list
            /\ attempts evs = 0%nat /\ (requests evs <= 1)%nat
            /\ sleeps evs = []).
  { exists []. rewrite app_nil_r. cbn. auto. }
  destruct ctx as [cx|]; [|exact Hnil].
  destruct (Context_Err cx (clock w)) as [ce|] eqn:Hlive.
  { unfold fetchOnce, observe. rewrite Hlive. exact Hnil. }
  destruct (BuildURL q (baseURL c) endpoint) as [url|err] eqn:Hurl.
  2:{ unfold fetchOnce, observe. rewrite Hlive, Hurl. exact Hnil. }
  destruct (requestError url) as [m|] eqn:Hreq.
  { unfold fetchOnce, observe. rewrite Hlive, Hurl, cacheLookup_spec, Hreq.
    cbn [snd trace]. exists (cacheReads c url).
    unfold cacheReads. destruct (cache c); cbn; auto. }
  set (req := newRequest c url (cachedEntry c url (store w))).
  assert (Hrq : requested c (Some cx) q endpoint w url req).
  { exists cx. repeat split; assumption. }
  destruct (fetchOnce_requested _ _ _ _ _ _ _ Hrq) as (cx' & _ & ->).
  destruct (request_events c url req) as (Ha0 & Hr0 & Hz0 & _).
  destruct (httpClient c (sent w) req) as [m|resp].
  - cbn [snd trace]. exists (cacheReads c url ++ [HttpDo req])%list.
    rewrite Ha0, Hr0, Hz0. auto.
  - destruct (handleResponse_events c url (cachedEntry c url (store w)) resp
                (afterRequest c url req w)) as (evs & -> & Ha & Hr & Hz & _).
    exists ((cacheReads c url ++ [HttpDo req]) ++ evs)%list.
    unfold afterRequest. cbn [trace]. split.
    { rewrite <- !app_assoc. reflexivity. }
    rewrite attempts_app, requests_app, sleeps_app, Ha, Hr, Hz, Ha0, Hr0, Hz0.
    auto.
Qed.

(** The events of the rounds of the loop, counted. *)
Lemma loopEvents_counts (bodies : list (list Event)) : forall i delay,
  Forall attemptBody bodies ->
  attempts (loopEvents i delay bodies) = length bodies
  /\ (requests (loopEvents i delay bodies) <= length bodies)%nat
  /\ length (sleeps (loopEvents i delay bodies))
     = match i with
       | O => pred (length bodies)
       | S _ => length bodies
       end.
Proof.
  induction bodies as [|body rest IH]; intros i delay Hall.
  - cbn. destruct i; auto.
  - inversion Hall as [|b l (Ha & Hz & Hr) Hrest]; subst.
    destruct (IH (S i) (match i with O => delay | S _ => wrap64 (delay * 2) end)
                Hrest) as (IHa & IHr & IHz).
    cbn [loopEvents length].
    rewrite !attempts_app, !requests_app, !sleeps_app, !length_app,
      Ha, Hz, IHa, IHz.
    destruct i; cbn [attempts requests sleeps length Nat.add pred];
      repeat split; lia.
Qed.

(** A round under a context: it ends the call at once, having done
    nothing, or it waits, unless it is the first, and makes its attempt;
    no round panics. *)
Lemma loopBody_round c cx q endpoint (a : nat) delay w :
  (trace (snd (loopBody c (Some cx) q endpoint (Z.of_nat a) delay w)) = trace w
   /\ exists e,
        fst (loopBody c (Some cx) q endpoint (Z.of_nat a) delay w)
        = Exit (Returned (Err e)))
  \/ (exists body,
        attemptBody body
        /\ trace (snd (loopBody c (Some cx) q endpoint (Z.of_nat a) delay w))
           = (trace w
                ++ (match a with
                    | O => []
                    | S _ => [Sleep delay]
                    end)
                ++ [Attempt (Z.of_nat a)] ++ body)%list
        /\ ((exists r,
               fst (loopBody c (Some cx) q endpoint (Z.of_nat a) delay w)
               = Exit (Returned r))
            \/ (exists e,
                  fst (loopBody c (Some cx) q endpoint (Z.of_nat a) delay w)
                  = Continue (match a with
                              | O => delay
                              | S _ => wrap64 (delay * 2)
                              end) e))).
Proof.
  unfold loopBody, observe.
  destruct (Context_Err cx (clock w)) as [e|].
  { left. cbn [fst snd trace]. eauto. }
  cbn [clock sent store trace].
  destruct a as [|a'].
  - change (0 <? Z.of_nat 0)%Z with false. cbv iota.
    match goal with |- context [fetchOnce c (Some cx) q endpoint ?w1] =>
      destruct (fetchOnce_events c (Some cx) q endpoint w1)
        as (evs & Ht & Ha & Hr & Hz);
      destruct (fetchOnce c (Some cx) q endpoint w1) as [r w2]
    end.
    cbn [snd record trace clock sent store] in Ht.
    right. exists evs. split; [repeat split; assumption|].
    destruct r as [data|err]; [|destruct (negb (shouldRetry (Some err)))];
      cbn [fst snd]; (split; [rewrite Ht, <- !app_assoc; reflexivity|]);
      eauto.
  - replace (0 <? Z.of_nat (S a'))%Z with true
      by (symmetry; apply Z.ltb_lt; lia).
    destruct (Context_Err cx (S (clock w))) as [e|].
    { left. cbn [fst snd trace]. eauto. }
    match goal with |- context [fetchOnce c (Some cx) q endpoint ?w1] =>
      destruct (fetchOnce_events c (Some cx) q endpoint w1)
        as (evs & Ht & Ha & Hr & Hz);
      destruct (fetchOnce c (Some cx) q endpoint w1) as [r w2]
    end.
    cbn [snd record trace clock sent store] in Ht.
    right. exists evs. split; [repeat split; assumption|].
    destruct r as [data|err]; [|destruct (negb (shouldRetry (Some err)))];
      cbn [fst snd]; (split; [rewrite Ht, <- !app_assoc; reflexivity|]);
      eauto.
Qed.

(** The loop from any of its rounds, given fuel for the rounds that are
    left: it returns, and what it did is the events of its rounds. *)
Lemma fetchLoop_rounds c cx q endpoint (fuel : nat) :
  forall (a : nat) delay lastErr w,
  (maxRetries c < 2 ^ 63 - 1)%Z ->
  (Z.to_nat (maxRetries c + 1 - Z.of_nat a) < fuel)%nat ->
  exists r w' bodies,
    fetchLoop fuel c (Some cx) q endpoint (Z.of_nat a) delay lastErr w
    = Some (Returned r, w')
    /\ trace w' = (trace w ++ loopEvents a delay bodies)%list
    /\ Forall attemptBody bodies
    /\ (length bodies <= Z.to_nat (maxRetries c + 1 - Z.of_nat a))%nat.
Proof.
  induction fuel as [|fuel IH]; intros a delay lastErr w Hmax Hfuel; [lia|].
  cbn [fetchLoop].
  destruct (Z.leb_spec (Z.of_nat a) (maxRetries c)) as [Hle|Hgt].
  2:{ eexists _, w, []. cbn [loopEvents length]. rewrite app_nil_r.
      repeat split; auto. lia. }
  destruct (loopBody_round c cx q endpoint a delay w)
    as [[Ht [e He]]|(body & Hbody & Ht & [[r Hr]|[e He]])].
  - destruct (loopBody c (Some cx) q endpoint (Z.of_nat a) delay w) as [rd w1].
    cbn [fst snd] in *. subst rd.
    eexists _, w1, []. cbn [loopEvents length]. rewrite app_nil_r.
    repeat split; auto. lia.
  - destruct (loopBody c (Some cx) q endpoint (Z.of_nat a) delay w) as [rd w1].
    cbn [fst snd] in *. subst rd.
    exists r, w1, [body]. split; [reflexivity|]. split.
    { rewrite Ht. cbn [loopEvents]. rewrite app_nil_r. reflexivity. }
    split; [constructor; [exact Hbody|constructor]|]. cbn [length]. lia.
  - destruct (loopBody c (Some cx) q endpoint (Z.of_nat a) delay w) as [rd w1].
    cbn [fst snd] in *. subst rd.
    rewrite (wrap64_small (Z.of_nat a + 1)) by lia.
    replace (Z.of_nat a + 1)%Z with (Z.of_nat (S a)) by lia.
    destruct (IH (S a) (match a with O => delay | S _ => wrap64 (delay * 2) end)
                (Some e) w1)
      as (r & w' & bodies & -> & Ht' & Hall & Hlen); try lia.
    exists r, w', (body :: bodies). split; [reflexivity|]. split.
    { rewrite Ht', Ht. cbn [loopEvents]. rewrite <- !app_assoc. reflexivity. }
    split; [constructor; assumption|]. cbn [length]. lia.
Qed.

(** X14: with a context that is not nil and [maxRetries] below the
    largest [int], [fetch] always returns, and never panics.  What it
    does is a sequence of at most [maxRetries + 1] rounds, none when
    [maxRetries] is negative: each round but the first starts with one
    wait, of the delay that is doubled (in 64 bits) from round to round;
    then comes its attempt, whose events hold at most one request and no
    wait.  So the attempts are at most [maxRetries + 1], the requests at
    most as many as the attempts, and the waits one less than the
    attempts. *)
Theorem fetch_returns_within_budget c cx q endpoint w :
  (maxRetries c < 2 ^ 63 - 1)%Z ->
  exists r w' evs bodies,
    fetch c (Some cx) q endpoint w = Some (Returned r, w')
    /\ trace w' = (trace w ++ evs)%list
    /\ evs = loopEvents 0 (retryDelay c) bodies
    /\ Forall attemptBody bodies
    /\ (Z.of_nat (length bodies) <= Z.max 0 (maxRetries c + 1))%Z
    /\ (Z.of_nat (attempts evs) <= Z.max 0 (maxRetries c + 1))%Z
    /\ (requests evs <= attempts evs)%nat
    /\ length (sleeps evs) = pred (attempts evs).
Proof.
  intros Hmax. unfold fetch.
  destruct (fetchLoop_rounds c cx q endpoint (S (Z.to_nat (maxRetries c + 1)))
              0%nat (retryDelay c) None w)
    as (r & w' & bodies & Hrun & Ht & Hall & Hlen); try (cbn [Z.of_nat]; lia).
  destruct (loopEvents_counts bodies 0%nat (retryDelay c) Hall)
    as (Ha & Hr & Hz).
  exists r, w', (loopEvents 0 (retryDelay c) bodies), bodies.
  split; [exact Hrun|]. split; [exact Ht|]. split; [reflexivity|].
  split; [exact Hall|]. cbn [Z.of_nat] in Hlen.
  rewrite Ha, Hz. split; [lia|]. split; [lia|]. split; [lia|reflexivity].
Qed.

(** The error with which a round ends the call. *)
Lemma loopBody_exit_error c cx q endpoint attempt delay w e :
  fst (loopBody c (Some cx) q endpoint attempt delay w)
  = Exit (Returned (Err e)) ->
  (exists text inner, e = Wrap text inner)
  \/ (exists resp message,
        e = ErrorResponse (Some resp) message /\ (StatusCode resp < 500)%Z).
Proof.
  unfold loopBody, observe.
  destruct (Context_Err cx (clock w)) as [ce|].
  { cbn [fst]. intros He. injection He as <-. left. eauto. }
  cbn [clock sent store trace].
  assert (Hattempt : forall delay' w1,
    fst (let (r, w2) := fetchOnce c (Some cx) q endpoint w1 in
         match r with
         | Ok data => (Exit (Returned (Ok data)), w2)
         | Err err =>
             if negb (shouldRetry (Some err))
             then (Exit (Returned (Err err)), w2)
             else (Continue delay' err, w2)
         end) = Exit (Returned (Err e)) ->
    (exists text inner, e = Wrap text inner)
    \/ (exists resp message,
          e = ErrorResponse (Some resp) message /\ (StatusCode resp < 500)%Z)).
  { intros delay' w1.
    pose proof (fetchOnce_error_kinds c cx q endpoint w1) as Hkinds.
    destruct (fetchOnce c (Some cx) q endpoint w1) as [[data|err] w2];
      cbn [fst] in *; [discriminate|].
    destruct (shouldRetry (Some err)) eqn:Hretry; cbn [negb fst];
      [discriminate|].
    intros He. injection He as <-.
    destruct (Hkinds err eq_refl)
      as [(text & inner & ->)|(url & resp & message & _ & ->)];
      [discriminate|].
    right. exists resp, message. split; [reflexivity|].
    unfold shouldRetry, IsQueryError, IsServerError in Hretry.
    apply Z.leb_gt. exact Hretry. }
  destruct (0 <? attempt)%Z.
  - destruct (Context_Err cx (S (clock w))) as [ce|].
    { cbn [fst]. intros He. injection He as <-. left. eauto. }
    apply Hattempt.
  - apply Hattempt.
Qed.

Lemma fetchLoop_error_kinds c cx q endpoint (fuel : nat) :
  forall attempt delay lastErr w e w',
  fetchLoop fuel c (Some cx) q endpoint attempt delay lastErr w
  = Some (Returned (Err e), w') ->
  ((maxRetries c < attempt)%Z /\ e = retriesExceeded c lastErr)
  \/ (exists text inner, e = Wrap text inner)
  \/ (exists resp message,
        e = ErrorResponse (Some resp) message /\ (StatusCode resp < 500)%Z).
Proof.
  induction fuel as [|fuel IH]; intros attempt delay lastErr w e w';
    [discriminate|].
  cbn [fetchLoop]. destruct (Z.leb_spec attempt (maxRetries c)) as [Hle|Hgt].
  2:{ intros He. injection He as <- _. left. split; [exact Hgt|reflexivity]. }
  pose proof (loopBody_exit_error c cx q endpoint attempt delay w) as Hexit.
  destruct (loopBody c (Some cx) q endpoint attempt delay w) as [[o|d err] w1];
    cbn [fst] in Hexit.
  - intros He. injection He as -> _. right. apply Hexit. reflexivity.
  - intros Hrun. right.
    destruct (IH _ _ _ _ _ _ Hrun) as [[_ ->]|Hrest]; [|exact Hrest].
    left. cbn [retriesExceeded]. eauto.
Qed.

(** X15: whatever errors its attempts meet, a call of [fetch] with a
    context returns only three kinds of error: a wrapped error, the
    "max retries" error without a cause when [maxRetries] is negative,
    and the [ErrorResponse] for a response whose status is below 500.  So
    [IsQueryError] is false for every error of a fetch method, also when
    the query is invalid, and no [ErrorResponse] it returns is a server
    error. *)
Theorem fetch_error_kinds c cx q endpoint w e w' :
  fetch c (Some cx) q endpoint w = Some (Returned (Err e), w') ->
  ((exists text inner, e = Wrap text inner)
   \/ ((maxRetries c < 0)%Z /\ e = retriesExceeded c None)
   \/ (exists resp message,
         e = ErrorResponse (Some resp) message /\ (StatusCode resp < 500)%Z))
  /\ IsQueryError (Some e) = false
  /\ (forall r message, e = ErrorResponse r message -> IsServerError r = false).
Proof.
  intros Hrun. unfold fetch in Hrun.
  assert (Hkinds :
    (exists text inner, e = Wrap text inner)
    \/ ((maxRetries c < 0)%Z /\ e = retriesExceeded c None)
    \/ (exists resp message,
          e = ErrorResponse (Some resp) message /\ (StatusCode resp < 500)%Z)).
  { destruct (fetchLoop_error_kinds _ _ _ _ _ _ _ _ _ _ _ Hrun)
      as [[Hm ->]|[Hw|Hr]]; auto. }
  split; [exact Hkinds|].
  destruct Hkinds as [(text & inner & ->)|[[_ ->]|(resp & message & -> & Hc)]].
  - split; [reflexivity|]. discriminate.
  - split; [reflexivity|]. discriminate.
  - split; [reflexivity|]. intros r m He. injection He as <- _.
    apply Z.leb_gt. exact Hc.
Qed.

(** X16: with a negative [maxRetries] the loop has no round: [fetch]
    makes no attempt and returns the "max retries" error, whose cause is
    nil, for every context, the nil context included. *)
Theorem fetch_negative_retries c ctx q endpoint w :
  (maxRetries c < 0)%Z ->
  fetch c ctx q endpoint w
  = Some (Returned (Err (LibError (("max retries (" +:+ itoa (maxRetries c)
                                    +:+ ") exceeded") +:+ ": %!w(<nil>)"))),
          w).
Proof.
  intros Hm. unfold fetch.
  replace (Z.to_nat (maxRetries c + 1)) with 0%nat by lia.
  cbn [fetchLoop]. rewrite (proj2 (Z.leb_gt _ _)) by lia. reflexivity.
Qed.

(** A call depends on the query through its URL only. *)
Lemma fetchOnce_by_URL c ctx q q' endpoint w :
  BuildURL q (baseURL c) endpoint = BuildURL q' (baseURL c) endpoint ->
  fetchOnce c ctx q endpoint w = fetchOnce c ctx q' endpoint w.
Proof. intros Hurl. unfold fetchOnce. rewrite Hurl. reflexivity. Qed.

Lemma loopBody_by_URL c ctx q q' endpoint attempt delay w :
  BuildURL q (baseURL c) endpoint = BuildURL q' (baseURL c) endpoint ->
  loopBody c ctx q endpoint attempt delay w
  = loopBody c ctx q' endpoint attempt delay w.
Proof.
  intros Hurl. unfold loopBody. destruct ctx as [cx|]; [|reflexivity].
  destruct (observe cx w) as [[e|] w1]; [reflexivity|].
  destruct (if (0 <? attempt)%Z then _ else _) as [[[err|] d] w2];
    [reflexivity|].
  rewrite (fetchOnce_by_URL c (Some cx) q q' endpoint _ Hurl). reflexivity.
Qed.

Lemma fetch_by_URL c ctx q q' endpoint w :
  BuildURL q (baseURL c) endpoint = BuildURL q' (baseURL c) endpoint ->
  fetch c ctx q endpoint w = fetch c ctx q' endpoint w.
Proof.
  intros Hurl. unfold fetch.
  generalize (S (Z.to_nat (maxRetries c + 1))) 0%Z (retryDelay c)
    (@None error) w.
  intros fuel. induction fuel as [|fuel IH]; intros attempt delay lastErr w0;
    [reflexivity|].
  cbn [fetchLoop]. rewrite (loopBody_by_URL c ctx q q' endpoint _ _ _ Hurl).
  destruct (attempt <=? maxRetries c)%Z; [|reflexivity].
  destruct (loopBody c ctx q' endpoint attempt delay w0) as [[o|d e] w1];
    [reflexivity|apply IH].
Qed.

(** X17: the three GP methods ignore the table flags of the query:
    whatever the flags are set to, the call does and returns the same. *)
Theorem FetchGP_ignores_table_flags c ctx q flags w :
  FetchGP c ctx (withTableFlags q flags) w = FetchGP c ctx q w
  /\ FetchGPFirst c ctx (withTableFlags q flags) w = FetchGPFirst c ctx q w
  /\ FetchGPLast c ctx (withTableFlags q flags) w = FetchGPLast c ctx q w.
Proof.
  unfold FetchGP, FetchGPFirst, FetchGPLast.
  repeat split; apply fetch_by_URL; apply BuildURL_flags_ignored; discriminate.
Qed.

(** X18: a context that ends between the check at the top of a round
    and the check of the attempt is found by the attempt, whose error the
    loop takes for transient; the call still ends with an error that
    wraps the error of the context, and no request is sent for it. *)
Theorem fetch_done_between_checks c cx q endpoint w0 n attempt delay
  lastErr w e :
  (maxRetries c < 2 ^ 63 - 1)%Z ->
  rounds c (Some cx) q endpoint w0 n attempt delay lastErr w ->
  (attempt <= maxRetries c)%Z ->
  Context_Err cx (clock w) = None ->
  ((0 < attempt)%Z -> Context_Err cx (S (clock w)) = None) ->
  Context_Err cx (if (0 <? attempt)%Z then S (S (clock w)) else S (clock w))
  = Some e ->
  exists err w',
    fetch c (Some cx) q endpoint w0 = Some (Returned (Err err), w')
    /\ wrapsContextError e err
    /\ sent w' = sent w
    /\ requests (trace w') = requests (trace w).
Proof.
  intros Hmax Hr Hle Hlive Hwait Hdone.
  destruct (fetch_rounds _ _ _ _ _ _ _ _ _ _ Hmax Hr) as [Hn ->].
  replace (Z.to_nat (maxRetries c + 1 - attempt))
    with (S (Z.to_nat (maxRetries c - attempt))) by lia.
  apply fetch_context_done_in_attempt; try assumption. lia.
Qed.

(** X19: the request of an attempt is for the URL of the query and
    carries two headers at most: [User-Agent] with the user agent of the
    client when that is not empty, and [If-None-Match] with the validator
    the cache returned for the URL when there is one that is not empty. *)
Theorem request_headers c ctx q endpoint w url req :
  requested c ctx q endpoint w url req ->
  req_URL req = url
  /\ (forall v, In ("User-Agent", v) (req_Header req)
                <-> v = userAgent c /\ v <> "")
  /\ (forall v, In ("If-None-Match", v) (req_Header req)
                <-> v <> ""
                    /\ exists data,
                         cachedEntry c url (store w) = Some (data, v))
  /\ (forall k v, In (k, v) (req_Header req) ->
                  k = "User-Agent" \/ k = "If-None-Match")
  /\ (length (req_Header req) <= 2)%nat.
Proof.
  intros (cx & _ & _ & _ & _ & ->). unfold newRequest. cbn [req_URL req_Header].
  split; [reflexivity|].
  destruct (String.eqb_spec (userAgent c) "") as [Hua|Hua];
    destruct (cachedEntry c url (store w)) as [[data etag]|];
    try destruct (String.eqb_spec etag "") as [He|He];
    cbn [negb In length];
    (split; [intros v; split;
              [ intros Hin; intuition (try discriminate);
                match goal with Hx : (_, _) = (_, _) |- _ =>
                  injection Hx as <- end; auto
              | intros [-> Hv]; try tauto; try congruence ]|]);
    (split; [intros v; split;
              [ intros Hin; intuition (try discriminate);
                match goal with Hx : (_, _) = (_, _) |- _ =>
                  injection Hx as <- end; eauto
              | intros [Hv [data' Hd]]; try discriminate;
                try (injection Hd as _ <-); try tauto; try congruence ]|]);
    (split; [intros k v Hin;
             intuition (match goal with Hx : (_, _) = (_, _) |- _ =>
                          injection Hx as <- _ end; auto)|lia]).
Qed.

End LoopExtras.

(** ** The further properties at work *)

Lemma iss_requested {St} (c : Client St) (w : World St) :
  baseURL c = Some defaultBaseURL ->
  requested (H := plainNet) c (Some Background) iss "gp.php" w issURL
    (newRequest c issURL (cachedEntry c issURL (store w))).
Proof.
  intros Hbase. exists Background. rewrite Hbase.
  repeat split; vm_compute; reflexivity.
Qed.

Lemma iss_answered_at {St} (resp : Response) (c : Client St) (w : World St) :
  baseURL c = Some defaultBaseURL ->
  (forall req, httpClient c (sent w) req = DoResponse resp) ->
  answered (H := plainNet) c (Some Background) iss "gp.php" w issURL resp.
Proof.
  intros Hbase Hdo. eexists. split; [apply iss_requested; exact Hbase|apply Hdo].
Qed.

Lemma QueryBy_URL_witness :
  BuildURL (H := plainNet) (QueryByCATNR " 25544 " FormatJSON)
    (Some defaultBaseURL) "gp.php"
  = Ok issURL
  /\ BuildURL (H := plainNet) (QueryByGROUP " 25544 " FormatJSON)
       (Some defaultBaseURL) "gp.php"
     = Ok "https://celestrak.org/NORAD/elements/gp.php?FORMAT=JSON&GROUP=25544".
Proof.
  assert (Hv : TrimSpace " 25544 " <> "") by (vm_compute; discriminate).
  assert (Hep : "gp.php" <> "") by discriminate.
  pose proof (QueryBy_URL (H := plainNet) " 25544 " FormatJSON defaultBaseURL
                "gp.php" Hv Hep) as Hall.
  split; [exact (proj1 Hall)|exact (proj1 (proj2 (proj2 Hall)))].
Defined.

Lemma BuildURL_table_flags_witness :
  exists ps,
    BuildURL (H := plainNet) stationsTable (Some defaultBaseURL) "table.php"
    = Ok (urlWith (H := plainNet) defaultBaseURL "table.php" ps)
    /\ (In ("SHOW-OPS", "1") ps <-> ShowOps (tableFlags stationsTable) = true)
    /\ (In ("MOVERS", "1") ps <-> Movers (tableFlags stationsTable) = true).
Proof.
  assert (Hep : "table.php" <> "") by discriminate.
  assert (Hs : singleSelector stationsTable = Ok ("GROUP", "STATIONS"))
    by reflexivity.
  destruct (proj2 (BuildURL_table_flags (H := plainNet) stationsTable
                     defaultBaseURL "table.php" "GROUP" "STATIONS" Hep Hs)
              eq_refl) as (ps & Hurl & Hflags).
  exists ps. split; [exact Hurl|]. split.
  - apply (Hflags "SHOW-OPS" ShowOps). right. left. reflexivity.
  - apply (Hflags "MOVERS" Movers). do 4 right. left. reflexivity.
Defined.

Lemma fetchOnce_empty_body_witness :
  exists req,
    fetchOnce (H := plainNet) (NewClient (St := unit) (always emptyOK))
      (Some Background) iss "gp.php" (start tt)
    = (Err (ErrorResponse (Some emptyOK) "empty response body"),
       afterRequest (NewClient (always emptyOK)) issURL req
         (start tt)).
Proof.
  assert (Hans : answered (H := plainNet) (NewClient (St := unit) (always emptyOK))
                   (Some Background) iss "gp.php" (start tt) issURL emptyOK)
    by (apply iss_answered; reflexivity).
  assert (Hcode : (200 <= StatusCode emptyOK <= 299)%Z) by (split; discriminate).
  destruct (fetchOnce_empty_body _ _ _ _ _ _ _ Hans Hcode eq_refl eq_refl)
    as (req & _ & Hrun & _).
  exists req. exact Hrun.
Defined.

Lemma fetchOnce_read_error_witness :
  exists req,
    fetchOnce (H := plainNet) (NewClient (St := unit) (always brokenOff))
      (Some Background) iss "gp.php" (start tt)
    = (Err (Wrap "read response" (LibError "unexpected EOF")),
       afterRequest (NewClient (always brokenOff)) issURL req
         (start tt)).
Proof.
  assert (Hans : answered (H := plainNet) (NewClient (St := unit) (always brokenOff))
                   (Some Background) iss "gp.php" (start tt) issURL brokenOff)
    by (apply iss_answered; reflexivity).
  assert (Hcode : (200 <= StatusCode brokenOff <= 299)%Z) by (split; discriminate).
  assert (Hlen : (len (content (RespBody brokenOff)) < maxResponseSize)%N)
    by reflexivity.
  destruct (fetchOnce_read_error _ _ _ _ _ _ _ _ Hans Hcode Hlen eq_refl)
    as (req & _ & Hrun & _).
  exists req. exact Hrun.
Defined.

Lemma fetchOnce_success_witness :
  fst (fetchOnce (H := plainNet) (caching issJSON) (Some Background) iss
         "gp.php" (start ∅))
  = Ok (bytes_of_string "[{}]")
  /\ store (snd (fetchOnce (H := plainNet) (caching issJSON) (Some Background)
                   iss "gp.php" (start ∅)))
     = <[issURL := (bytes_of_string "[{}]", "W/abc")]> ∅.
Proof.
  assert (Hans : answered (H := plainNet) (caching issJSON) (Some Background)
                   iss "gp.php" (start ∅) issURL issJSON)
    by (apply iss_answered; reflexivity).
  assert (Hcode : (200 <= StatusCode issJSON <= 299)%Z) by (split; discriminate).
  assert (Hlen : (0 < len (content (RespBody issJSON)) <= maxResponseSize)%N)
    by (split; [reflexivity|discriminate]).
  destruct (fetchOnce_success _ _ _ _ _ _ _ Hans Hcode Hlen eq_refl)
    as (req & _ & Hfst & Hstore & _).
  split; [exact Hfst|exact Hstore].
Defined.

Lemma fetchOnce_transport_error_witness :
  fst (fetchOnce (H := plainNet) offline (Some Background) iss "gp.php"
         (start tt))
  = Err (Wrap "request failed" (LibError "dial tcp: connection refused")).
Proof.
  assert (Hrq : requested (H := plainNet) offline (Some Background) iss "gp.php"
                  (start tt) issURL
                  (newRequest offline issURL
                     (cachedEntry offline issURL
                        (store (start tt)))))
    by (apply iss_requested; reflexivity).
  destruct (fetchOnce_transport_error _ _ _ _ _ _ _
              "dial tcp: connection refused" Hrq eq_refl)
    as (cx & err & Hcx & Hfst & Herr & _).
  injection Hcx as <-. rewrite Hfst, Herr. reflexivity.
Defined.

Lemma fetchOnce_final_errors_witness :
  exists url resp message,
    answered (H := plainNet) (NewClient (St := unit) (always notFound))
      (Some Background) iss "gp.php" (start tt) url resp
    /\ ErrorResponse (Some notFound) "No GP data found"
       = ErrorResponse (Some resp) message
    /\ (StatusCode resp < 500)%Z.
Proof.
  assert (Hrun : fst (fetchOnce (H := plainNet)
                        (NewClient (St := unit) (always notFound))
                        (Some Background) iss "gp.php" (start tt))
                 = Err (ErrorResponse (Some notFound) "No GP data found"))
    by (vm_compute; reflexivity).
  destruct (fetchOnce_final_errors _ _ _ _ _ _ Hrun eq_refl)
    as [[Hnil _]|Hresp]; [discriminate|exact Hresp].
Defined.

Lemma cache_round_trip_witness :
  fst (fetchOnce (H := plainNet)
         (WithCache (NewClient (revalidating issJSON)) (Some mapCache))
         (Some Background) iss "gp.php"
         (snd (fetchOnce (H := plainNet)
                 (WithCache (NewClient (revalidating issJSON)) (Some mapCache))
                 (Some Background) iss "gp.php" (start ∅))))
  = Ok (bytes_of_string "[{}]").
Proof.
  assert (Hans : answered (H := plainNet)
                   (WithCache (NewClient (revalidating issJSON)) (Some mapCache))
                   (Some Background) iss "gp.php" (start ∅) issURL issJSON)
    by (apply iss_answered_at; [reflexivity|intros req; reflexivity]).
  assert (Hcode : (200 <= StatusCode issJSON <= 299)%Z) by (split; discriminate).
  assert (Hlen : (0 < len (content (RespBody issJSON)) <= maxResponseSize)%N)
    by (split; [reflexivity|discriminate]).
  assert (Hans' : answered (H := plainNet)
                    (WithCache (NewClient (revalidating issJSON)) (Some mapCache))
                    (Some Background) iss "gp.php"
                    (snd (fetchOnce (H := plainNet)
                            (WithCache (NewClient (revalidating issJSON))
                               (Some mapCache))
                            (Some Background) iss "gp.php" (start ∅)))
                    issURL notModified)
    by (apply iss_answered_at; [reflexivity|intros req; vm_compute; reflexivity]).
  exact (proj1 (cache_round_trip (H := plainNet)
                  (WithCache (NewClient (revalidating issJSON)) (Some mapCache))
                  (Some Background) iss "gp.php" (start ∅) issURL issJSON
                  notModified eq_refl Hans Hcode Hlen eq_refl Hans' eq_refl)).
Defined.

Lemma fetch_recovers_witness :
  exists w' evs,
    fetch (H := plainNet) (NewClient (St := unit) (flaky 2 issJSON))
      (Some Background) iss "gp.php" (start tt)
    = Some (Returned (Ok (bytes_of_string "[{}]")), w')
    /\ trace w' = (trace (start tt) ++ evs)%list
    /\ evs
       = [ Attempt 0; HttpDo (mkRequest issURL [("User-Agent", "celestrak-go/0.0.1")]);
           Sleep Second; Attempt 1; HttpDo (mkRequest issURL [("User-Agent", "celestrak-go/0.0.1")]);
           Sleep (2 * Second); Attempt 2; HttpDo (mkRequest issURL [("User-Agent", "celestrak-go/0.0.1")]) ]
    /\ attempts evs = 3%nat /\ requests evs = 3%nat
    /\ sleeps evs = [Second; 2 * Second]%Z.
Proof.
  assert (HK : (Z.of_nat 2 <= maxRetries (NewClient (St := unit) (flaky 2 issJSON)))%Z)
    by (vm_compute; congruence).
  assert (Hmax : (maxRetries (NewClient (St := unit) (flaky 2 issJSON))
                  < 2 ^ 63 - 1)%Z) by reflexivity.
  assert (Hrange : (- 2 ^ 63
                    <= retryDelay (NewClient (St := unit) (flaky 2 issJSON))
                       * 2 ^ (Z.of_nat 2 - 1) < 2 ^ 63)%Z)
    by (vm_compute; split; congruence).
  assert (Hdo : forall i req, (i < 2)%nat ->
            httpClient (NewClient (St := unit) (flaky 2 issJSON))
              (sent (start tt) + i)%nat req
            = DoError (refusal (sent (start tt) + i)%nat)).
  { intros i req Hi. destruct i as [|[|i]]; [reflexivity|reflexivity|lia]. }
  assert (Hcode : (200 <= StatusCode issJSON <= 299)%Z) by (split; discriminate).
  assert (Hlen : (0 < len (content (RespBody issJSON)) <= maxResponseSize)%N)
    by (split; [reflexivity|discriminate]).
  exact (fetch_recovers (H := plainNet) (NewClient (St := unit) (flaky 2 issJSON))
           Background iss "gp.php" issURL (fun _ => eq_refl) eq_refl eq_refl
           (fun n => DoError (refusal n)) 2 (start tt) issJSON HK Hmax Hrange
           Hdo (fun _ _ => eq_refl) (fun _ => eq_refl) Hcode Hlen eq_refl).
Defined.

Lemma fetch_status_error_is_final_witness :
  exists w' evs,
    fetch (H := plainNet) (NewClient (St := unit) (flaky 1 notFound))
      (Some Background) iss "gp.php" (start tt)
    = Some (Returned (Err (ErrorResponse (Some notFound) "No GP data found")),
            w')
    /\ trace w' = (trace (start tt) ++ evs)%list
    /\ attempts evs = 2%nat /\ requests evs = 2%nat
    /\ sleeps evs = [Second].
Proof.
  assert (HK : (Z.of_nat 1 <= maxRetries (NewClient (St := unit) (flaky 1 notFound)))%Z)
    by (vm_compute; congruence).
  assert (Hmax : (maxRetries (NewClient (St := unit) (flaky 1 notFound))
                  < 2 ^ 63 - 1)%Z) by reflexivity.
  assert (Hrange : (- 2 ^ 63
                    <= retryDelay (NewClient (St := unit) (flaky 1 notFound))
                       * 2 ^ (Z.of_nat 1 - 1) < 2 ^ 63)%Z)
    by (vm_compute; split; congruence).
  assert (Hdo : forall i req, (i < 1)%nat ->
            httpClient (NewClient (St := unit) (flaky 1 notFound))
              (sent (start tt) + i)%nat req
            = DoError (refusal (sent (start tt) + i)%nat)).
  { intros i req Hi. destruct i as [|i]; [reflexivity|lia]. }
  assert (H304 : StatusCode notFound <> 304%Z) by discriminate.
  assert (Hcode : (StatusCode notFound < 200
                   \/ 299 < StatusCode notFound < 500)%Z)
    by (right; split; reflexivity).
  exact (fetch_status_error_is_final (H := plainNet)
           (NewClient (St := unit) (flaky 1 notFound))
           Background iss "gp.php" issURL (fun _ => eq_refl) eq_refl eq_refl
           (fun n => DoError (refusal n)) 1 (start tt) notFound HK Hmax Hrange
           Hdo (fun _ _ => eq_refl) (fun _ => eq_refl) H304 Hcode).
Defined.

Lemma fetch_exhausts_retries_witness :
  exists err w' evs,
    fetch (H := plainNet) (NewClient (St := unit) (always unavailable))
      (Some Background) iss "gp.php" (start tt)
    = Some (Returned (Err err), w')
    /\ err = Wrap "max retries (3) exceeded"
                  (ErrorResponse (Some unavailable) "try later")
    /\ IsErrorResponse (Some err) = false
    /\ IsQueryError (Some err) = false
    /\ trace w' = (trace (start tt) ++ evs)%list
    /\ evs
       = [ Attempt 0; HttpDo (mkRequest issURL [("User-Agent", "celestrak-go/0.0.1")]);
           Sleep Second; Attempt 1; HttpDo (mkRequest issURL [("User-Agent", "celestrak-go/0.0.1")]);
           Sleep (2 * Second); Attempt 2; HttpDo (mkRequest issURL [("User-Agent", "celestrak-go/0.0.1")]);
           Sleep (4 * Second); Attempt 3; HttpDo (mkRequest issURL [("User-Agent", "celestrak-go/0.0.1")]) ]
    /\ Z.of_nat (attempts evs) = 4%Z
    /\ Z.of_nat (requests evs) = 4%Z
    /\ sleeps evs = [Second; 2 * Second; 4 * Second]%Z.
Proof.
  assert (Hm : (0 <= maxRetries (NewClient (St := unit) (always unavailable))
                < 2 ^ 63 - 1)%Z) by (vm_compute; split; congruence).
  assert (Hrange : (- 2 ^ 63
                    <= retryDelay (NewClient (St := unit) (always unavailable))
                       * 2 ^ (maxRetries
                                (NewClient (St := unit) (always unavailable)) - 1)
                    < 2 ^ 63)%Z)
    by (vm_compute; split; congruence).
  exact (fetch_exhausts_retries (H := plainNet)
           (NewClient (St := unit) (always unavailable))
           Background iss "gp.php" issURL (fun _ => eq_refl) eq_refl eq_refl
           (fun _ => DoResponse unavailable) (start tt) Hm Hrange
           (fun _ _ _ => eq_refl) (fun _ _ => eq_refl)).
Defined.

Lemma fetch_returns_within_budget_witness :
  exists r w' evs bodies,
    fetch (H := plainNet) offline (Some cancelledSoon) iss "gp.php" (start tt)
    = Some (Returned r, w')
    /\ trace w' = (trace (start tt) ++ evs)%list
    /\ evs = loopEvents 0 (retryDelay offline) bodies
    /\ Forall attemptBody bodies
    /\ (Z.of_nat (length bodies) <= Z.max 0 (maxRetries offline + 1))%Z
    /\ (Z.of_nat (attempts evs) <= Z.max 0 (maxRetries offline + 1))%Z
    /\ (requests evs <= attempts evs)%nat
    /\ length (sleeps evs) = pred (attempts evs).
Proof.
  assert (Hmax : (maxRetries offline < 2 ^ 63 - 1)%Z) by reflexivity.
  exact (fetch_returns_within_budget (H := plainNet) offline cancelledSoon iss
           "gp.php" (start tt) Hmax).
Defined.

Lemma fetch_error_kinds_witness :
  exists e w',
    fetch (H := plainNet) offline (Some Background) emptyQuery "gp.php"
      (start tt)
    = Some (Returned (Err e), w')
    /\ IsQueryError (Some e) = false
    /\ exists text inner, e = Wrap text inner.
Proof.
  assert (Hrun : exists e w',
            fetch (H := plainNet) offline (Some Background) emptyQuery "gp.php"
              (start tt)
            = Some (Returned (Err e), w')
            /\ exists text inner, e = Wrap text inner).
  { eexists _, _. split; [vm_compute; reflexivity|]. eexists _, _. reflexivity. }
  destruct Hrun as (e & w' & Hrun & Hwrap).
  exists e, w'. split; [exact Hrun|]. split; [|exact Hwrap].
  exact (proj1 (proj2 (fetch_error_kinds (H := plainNet) offline Background
                         emptyQuery "gp.php" (start tt) e w' Hrun))).
Defined.

Lemma fetch_negative_retries_witness :
  fetch (H := plainNet) (WithRetries offline (-1) Second) None iss "gp.php"
    (start tt)
  = Some (Returned (Err (LibError "max retries (-1) exceeded: %!w(<nil>)")),
          start tt).
Proof.
  assert (Hm : (maxRetries (WithRetries offline (-1) Second) < 0)%Z)
    by reflexivity.
  exact (fetch_negative_retries (H := plainNet) (WithRetries offline (-1) Second)
           None iss "gp.php" (start tt) Hm).
Defined.

Lemma fetch_done_between_checks_witness :
  exists err w',
    fetch (H := plainNet) offline (Some cancelledSoon) iss "gp.php" (start tt)
    = Some (Returned (Err err), w')
    /\ wrapsContextError Canceled err
    /\ sent w' = sent (start tt)
    /\ requests (trace w') = requests (trace (start tt)).
Proof.
  assert (Hmax : (maxRetries offline < 2 ^ 63 - 1)%Z) by reflexivity.
  assert (Hle : (0 <= maxRetries offline)%Z) by (vm_compute; congruence).
  assert (Hwait : (0 < 0)%Z -> Context_Err cancelledSoon (S (clock (start tt))) = None)
    by (intros Hx; discriminate Hx).
  exact (fetch_done_between_checks (H := plainNet) offline cancelledSoon
           iss "gp.php" (start tt) 0 0 (retryDelay offline) None (start tt)
           Canceled Hmax (rounds_start offline (Some cancelledSoon) iss "gp.php"
                            (start tt))
           Hle eq_refl Hwait eq_refl).
Defined.

Lemma request_headers_witness :
  req_URL (newRequest (caching notModified) issURL
             (cachedEntry (caching notModified) issURL (store (start warm))))
  = issURL
  /\ In ("User-Agent", "celestrak-go/0.0.1")
        (req_Header (newRequest (caching notModified) issURL
                       (cachedEntry (caching notModified) issURL
                          (store (start warm)))))
  /\ In ("If-None-Match", "abc")
        (req_Header (newRequest (caching notModified) issURL
                       (cachedEntry (caching notModified) issURL
                          (store (start warm))))).
Proof.
  assert (Hrq : requested (H := plainNet) (caching notModified)
                  (Some Background) iss "gp.php" (start warm) issURL
                  (newRequest (caching notModified) issURL
                     (cachedEntry (caching notModified) issURL
                        (store (start warm)))))
    by (apply iss_requested; reflexivity).
  destruct (request_headers _ _ _ _ _ _ _ Hrq) as (Hurl & Hua & Hinm & _).
  split; [exact Hurl|]. split.
  - apply Hua. split; [reflexivity|discriminate].
  - apply Hinm. split; [discriminate|].
    exists (bytes_of_string "[1]"). vm_compute. reflexivity.
Defined.
